(** * video_streaming_node: range resolution, HLS packaging and stream catalog

    A shallow embedding of the services and route handlers of the
    repository (videoStreamService.js, r2StreamService.js, hlsService.js,
    videoRoutes.js, hlsRoutes.js, uploadRoutes.js), the properties the
    specification states about them, and further properties of the same
    code: its answers to malformed, missing and unusual input, the effects of
    a conversion on the store, and how the routes and the services fit
    together.

    Conventions of the embedding.
    - A JavaScript string is a Rocq [string]: a sequence of code units
      below 256.  This is what Node hands to the handlers for an HTTP header
      value (latin1 decoding) and covers every path and playlist text used
      here.
    - A JavaScript number is [jsnum]: NaN or an integer in [Z].  Every
      number the modelled code computes is an integer; the embedding is exact
      as long as magnitudes stay below 2^53 (file sizes do), where the
      IEEE-754 doubles of JavaScript represent integers exactly.
    - POSIX path conventions (separator "/"). *)

From Stdlib Require Import ZArith Ascii Lia Bool.
From Stdlib Require String.
From stdpp Require Import base gmap strings list.

Local Open Scope Z_scope.

(** ** JavaScript primitives used by the services *)

Module JS.

Inductive jsnum : Type :=
  | NaN
  | Num (z : Z).

Definition isNaN (x : jsnum) : bool :=
  match x with NaN => true | Num _ => false end.

(** Arithmetic and comparison on numbers; every comparison with NaN is
    false. *)
Definition mul (x y : jsnum) : jsnum :=
  match x, y with Num a, Num b => Num (a * b) | _, _ => NaN end.

Definition add (x y : jsnum) : jsnum :=
  match x, y with Num a, Num b => Num (a + b) | _, _ => NaN end.

Definition sub (x y : jsnum) : jsnum :=
  match x, y with Num a, Num b => Num (a - b) | _, _ => NaN end.

Definition geq (x y : jsnum) : bool :=
  match x, y with Num a, Num b => b <=? a | _, _ => false end.

Definition gt (x y : jsnum) : bool :=
  match x, y with Num a, Num b => b <? a | _, _ => false end.

Definition code (c : ascii) : Z := Z.of_N (N_of_ascii c).

Definition chr (z : Z) : ascii := ascii_of_N (Z.to_N z).

(** [String.prototype.startsWith]. *)
Fixpoint startsWith (s pat : string) {struct pat} : bool :=
  match pat, s with
  | EmptyString, _ => true
  | String _ _, EmptyString => false
  | String p pat', String c s' => Ascii.eqb c p && startsWith s' pat'
  end.

(** [String.prototype.endsWith]. *)
Fixpoint endsWith (s pat : string) : bool :=
  String.eqb s pat ||
  match s with
  | EmptyString => false
  | String _ s' => endsWith s' pat
  end.

(** [String.prototype.includes]: some suffix of [s] starts with [pat]. *)
Fixpoint includes (s pat : string) : bool :=
  startsWith s pat ||
  match s with
  | EmptyString => false
  | String _ s' => includes s' pat
  end.

Fixpoint drop (n : nat) (s : string) : string :=
  match n, s with
  | O, _ => s
  | S _, EmptyString => EmptyString
  | S n', String _ s' => drop n' s'
  end.

(** [s.replace(pat, rep)] for a string (or literal, flag-free regular
    expression without metacharacters) [pat]: only the first occurrence is
    replaced. *)
Fixpoint replace (s pat rep : string) : string :=
  if startsWith s pat then rep +:+ drop (String.length pat) s
  else match s with
       | EmptyString => EmptyString
       | String c s' => String c (replace s' pat rep)
       end.

(** [s.split(sep)] for a one-character separator. *)
Fixpoint split (sep : ascii) (s : string) : list string :=
  match s with
  | EmptyString => [EmptyString]
  | String c s' =>
      if Ascii.eqb c sep then EmptyString :: split sep s'
      else match split sep s' with
           | h :: t => String c h :: t
           | [] => [String c EmptyString]
           end
  end.

(** [parts.join(sep)]. *)
Fixpoint join (sep : string) (parts : list string) : string :=
  match parts with
  | [] => EmptyString
  | [p] => p
  | p :: rest => p +:+ sep +:+ join sep rest
  end.

(** Truthiness of a possibly undefined string: [undefined], [null] and the
    empty string are falsy. *)
Definition truthy (s : option string) : bool :=
  match s with
  | None | Some EmptyString => false
  | Some (String _ _) => true
  end.

Definition toLowerChar (c : ascii) : ascii :=
  if (65 <=? code c) && (code c <=? 90) then chr (code c + 32) else c.

(** [String.prototype.toLowerCase] on the ASCII letters. *)
Fixpoint toLowerCase (s : string) : string :=
  match s with
  | EmptyString => EmptyString
  | String c s' => String (toLowerChar c) (toLowerCase s')
  end.

(** White space and line terminators skipped by [parseInt], among the code
    units below 256: TAB, LF, VT, FF, CR, SP, NBSP. *)
Definition isWhiteSpace (c : ascii) : bool :=
  let k := code c in
  ((9 <=? k) && (k <=? 13)) || (k =? 32) || (k =? 160).

Fixpoint trimStart (s : string) : string :=
  match s with
  | String c s' => if isWhiteSpace c then trimStart s' else s
  | EmptyString => EmptyString
  end.

(** Value of a character as a digit in radix up to 36. *)
Definition digitValue (c : ascii) : option Z :=
  let k := code c in
  if (48 <=? k) && (k <=? 57) then Some (k - 48)
  else if (97 <=? k) && (k <=? 122) then Some (k - 87)
  else if (65 <=? k) && (k <=? 90) then Some (k - 55)
  else None.

Definition radixDigit (R : Z) (c : ascii) : option Z :=
  match digitValue c with
  | Some d => if d <? R then Some d else None
  | None => None
  end.

(** Value of the longest prefix of radix-[R] digits, read left to right
    from the accumulator [acc]. *)
Fixpoint accDigits (R : Z) (acc : Z) (s : string) : Z :=
  match s with
  | EmptyString => acc
  | String c s' =>
      match radixDigit R c with
      | Some d => accDigits R (acc * R + d) s'
      | None => acc
      end
  end.

Definition parseDigits (R : Z) (s : string) : jsnum :=
  match s with
  | EmptyString => NaN
  | String c _ =>
      match radixDigit R c with
      | Some _ => Num (accDigits R 0 s)
      | None => NaN
      end
  end.

Definition stripSign (s : string) : Z * string :=
  match s with
  | String "-" s' => (-1, s')
  | String "+" s' => (1, s')
  | _ => (1, s)
  end.

Definition hexPrefixed (s : string) : option string :=
  match s with
  | String "0" (String "x" s') => Some s'
  | String "0" (String "X" s') => Some s'
  | _ => None
  end.

(** [parseInt(s, radix)] (ECMA-262, 19.2.5); [radix = None] is a missing
    radix argument. *)
Definition parseInt (s : string) (radix : option Z) : jsnum :=
  let '(sign, body) := stripSign (trimStart s) in
  let signed (x : jsnum) := mul (Num sign) x in
  match radix with
  | Some R =>
      if R =? 0 then
        match hexPrefixed body with
        | Some rest => signed (parseDigits 16 rest)
        | None => signed (parseDigits 10 body)
        end
      else if (R <? 2) || (36 <? R) then NaN
      else if R =? 16 then
        match hexPrefixed body with
        | Some rest => signed (parseDigits 16 rest)
        | None => signed (parseDigits 16 body)
        end
      else signed (parseDigits R body)
  | None =>
      match hexPrefixed body with
      | Some rest => signed (parseDigits 16 rest)
      | None => signed (parseDigits 10 body)
      end
  end.

Definition digitChar (d : Z) : ascii := chr (48 + d).

(** Decimal digits of a non-negative integer, most significant first,
    prepended to [acc]. *)
Fixpoint digitsOf (fuel : nat) (n : Z) (acc : string) : string :=
  match fuel with
  | O => acc
  | S fuel' =>
      let acc' := String (digitChar (n mod 10)) acc in
      if n <? 10 then acc' else digitsOf fuel' (n / 10) acc'
  end.

Definition digitFuel (n : Z) : nat := S (Z.to_nat (Z.log2 n)).

Definition natToString (n : Z) : string := digitsOf (digitFuel n) n EmptyString.

(** [String(x)] / template-literal interpolation of a number (integers of
    magnitude below 10^21 print in plain decimal). *)
Definition toString (x : jsnum) : string :=
  match x with
  | NaN => "NaN"
  | Num z => if z <? 0 then String "-" (natToString (- z)) else natToString z
  end.



(** [s.substring(start)]: a negative start counts as 0, a start beyond the
    end gives the empty string. *)
Definition substring (s : string) (start : Z) : string :=
  drop (Z.to_nat (Z.max 0 start)) s.

End JS.

Import JS.

(** ** Node's [path] module (POSIX flavour) *)

Module Path.

Definition isNormalSegment (seg : string) : bool :=
  negb (String.eqb seg "") && negb (String.eqb seg ".") && negb (String.eqb seg "..").

(** One step of [normalizeString]: empty and "." segments are skipped, ".."
    removes the last kept segment (or is kept, for a relative path with
    nothing left to remove), any other segment is kept. *)
Definition normStep (allowAboveRoot : bool) (res : list string) (seg : string)
  : list string :=
  if String.eqb seg "" || String.eqb seg "." then res
  else if String.eqb seg ".." then
    match last res with
    | Some l =>
        if String.eqb l ".." then (if allowAboveRoot then res ++ [".."] else res)
        else removelast res
    | None => if allowAboveRoot then [".."] else []
    end
  else res ++ [seg].

Definition normSegs (allowAboveRoot : bool) (segs : list string) : list string :=
  fold_left (normStep allowAboveRoot) segs [].

Definition isAbsolute (p : string) : bool := startsWith p "/".

(** [path.normalize]. *)
Definition normalize (p : string) : string :=
  match p with
  | EmptyString => "."
  | _ =>
      let abs := isAbsolute p in
      let trailing := endsWith p "/" in
      let body := JS.join "/" (normSegs (negb abs) (split "/" p)) in
      match body with
      | EmptyString => if abs then "/" else if trailing then "./" else "."
      | _ =>
          let body' := if trailing then body +:+ "/" else body in
          if abs then "/" +:+ body' else body'
      end
  end.

(** [path.join(...args)]: the non-empty arguments joined by "/", then
    normalized. *)
Definition join (args : list string) : string :=
  match filter (fun a => a ≠ EmptyString) args with
  | [] => "."
  | nonEmpty => normalize (JS.join "/" nonEmpty)
  end.

Definition lastNonEmpty (segs : list string) : string :=
  fold_left (fun acc seg => if String.eqb seg "" then acc else seg) segs EmptyString.

(** [path.basename(p)]: the last segment, trailing separators ignored. *)
Definition basename (p : string) : string := lastNonEmpty (split "/" p).

(** The suffix of [s] that starts at its last ".", if it has one. *)
Fixpoint fromLastDot (s : string) : option string :=
  match s with
  | EmptyString => None
  | String c s' =>
      match fromLastDot s' with
      | Some r => Some r
      | None => if Ascii.eqb c "." then Some s else None
      end
  end.

(** [path.extname(p)]: from the last "." of the basename to its end; empty
    when there is no ".", when the only "." starts the basename, and for
    "..". *)
Definition extname (p : string) : string :=
  let b := basename p in
  match b with
  | EmptyString => EmptyString
  | String _ rest =>
      match fromLastDot rest with
      | Some ext => if String.eqb b ".." then EmptyString else ext
      | None => EmptyString
      end
  end.

(** [path.parse(p).name]: the basename without its extension. *)
Definition parseName (p : string) : string :=
  let b := basename p in
  let ext := extname p in
  String.substring 0 (String.length b - String.length ext) b.

End Path.


(** ** Express requests and responses *)

Module Http.

#[local] Unset Elimination Schemes.
Inductive json : Type :=
  | JNull
  | JStr (s : string)
  | JNum (n : jsnum)
  | JArr (items : list json)
  | JObj (fields : list (string * json)).
#[local] Set Elimination Schemes.

Inductive body : Type :=
  | NoBody
  | Bytes (data : string)
  | Json (j : json).

(** The response object [res]: what has been set on it so far. *)
Record Response := mkResponse {
  status : Z;
  headers : list (string * string);
  payload : body;
  headersSent : bool
}.

Definition fresh : Response :=
  {| status := 200; headers := []; payload := NoBody; headersSent := false |}.

Fixpoint setHeader (k v : string) (hs : list (string * string))
  : list (string * string) :=
  match hs with
  | [] => [(k, v)]
  | (k', v') :: rest =>
      if String.eqb k' k then (k, v) :: rest else (k', v') :: setHeader k v rest
  end.

Fixpoint header (k : string) (hs : list (string * string)) : option string :=
  match hs with
  | [] => None
  | (k', v) :: rest => if String.eqb k' k then Some v else header k rest
  end.

Definition withStatus (c : Z) (r : Response) : Response :=
  {| status := c; headers := headers r; payload := payload r;
     headersSent := headersSent r |}.

Definition withHeaders (fields : list (string * string)) (r : Response) : Response :=
  {| status := status r;
     headers := fold_left (fun hs kv => setHeader kv.1 kv.2 hs) fields (headers r);
     payload := payload r; headersSent := headersSent r |}.

Definition withPayload (b : body) (r : Response) : Response :=
  {| status := status r; headers := headers r; payload := b; headersSent := true |}.

(** The part of the request the handlers read: [req.headers.range]. *)
Record Request := mkRequest { range : option string }.

End Http.

Import Http.

Definition nl : string := String (chr 10) EmptyString.
Definition dquote : string := String (chr 34) EmptyString.

(** ** Node's [fs] module over an explicit store

    The store maps an absolute, normalized path (its list of segments) to a
    file or a directory.  Every operation records the path it touches in the
    log of the world, so that a handler's file-system accesses can be
    inspected.  The world also holds the response object of the request
    being handled, which the handlers mutate, and the lines written to the
    logger.  System-level failures other than a missing or ill-kinded
    path (permissions, busy resources, full disks) are not modelled. *)

Module FS.

Record Date := mkDate { getTime : Z; toUTCString : string }.

Inductive node : Type :=
  | File (content : string) (mtime : Date)
  | Dir (dsize : Z) (mtime : Date).

Record Stats := mkStats { size : Z; mtime : Date; isDirectory : bool }.

Record JsError := mkError { name : string; code : string; message : string }.

Definition errno (c : string) (path : string) : JsError :=
  {| name := "Error"; code := c; message := c +:+ ": " +:+ path |}.

Inductive outcome (A : Type) : Type :=
  | Ok (a : A)
  | Throw (e : JsError).
Arguments Ok {A} a.
Arguments Throw {A} e.

Inductive op : Type :=
  | OpExists | OpStat | OpOpen | OpRead | OpWrite | OpAppend | OpMkdir | OpRm
  | OpRename | OpUnlink.

Record World := mkWorld {
  files : gmap (list string) node;
  now : Date;
  log : list (op * list string);
  res : Response;
  logged : list (string * string)
}.

(** Computations over the world that may throw. *)
Definition M (A : Type) : Type := World -> outcome A * World.

Definition ret {A} (a : A) : M A := fun w => (Ok a, w).

Definition throw {A} (e : JsError) : M A := fun w => (Throw e, w).

Definition bind {A B} (m : M A) (k : A -> M B) : M B :=
  fun w => match m w with
           | (Ok a, w') => k a w'
           | (Throw e, w') => (Throw e, w')
           end.

(** [try { m } catch (error) { handler(error) }]. *)
Definition tryCatch {A} (m : M A) (handler : JsError -> M A) : M A :=
  fun w => match m w with
           | (Ok a, w') => (Ok a, w')
           | (Throw e, w') => handler e w'
           end.

(** Pure updates of the world. *)
Definition logAccess (o : op) (k : list string) (w : World) : World :=
  {| files := files w; now := now w; log := log w ++ [(o, k)]; res := res w;
     logged := logged w |}.

Definition setFiles (m : gmap (list string) node) (w : World) : World :=
  {| files := m; now := now w; log := log w; res := res w; logged := logged w |}.

Definition setRes (r : Response) (w : World) : World :=
  {| files := files w; now := now w; log := log w; res := r; logged := logged w |}.

Definition addLine (level message : string) (w : World) : World :=
  {| files := files w; now := now w; log := log w; res := res w;
     logged := logged w ++ [(level, message)] |}.

Definition record (o : op) (k : list string) : M unit :=
  fun w => (Ok tt, logAccess o k w).

Definition getFiles : M (gmap (list string) node) := fun w => (Ok (files w), w).

Definition getNow : M Date := fun w => (Ok (now w), w).

Definition putFiles (m : gmap (list string) node) : M unit :=
  fun w => (Ok tt, setFiles m w).

Definition getRes : M Response := fun w => (Ok (res w), w).

Definition putRes (r : Response) : M unit := fun w => (Ok tt, setRes r w).

(** [logger.<level>(message, ...)]: the line is kept, with its level. *)
Definition logger (level message : string) : M unit :=
  fun w => (Ok tt, addLine level message w).

(** The store key of a path: its segments, with "", "." and ".." resolved. *)
Definition pathKey (p : string) : list string :=
  Path.normSegs false (split "/" p).

(** What a path names: a path written with a trailing separator names a
    directory only. *)
Definition nodeAt (m : gmap (list string) node) (p : string) : outcome node :=
  match m !! pathKey p with
  | Some (File c t) =>
      if endsWith p "/" then Throw (errno "ENOTDIR" p) else Ok (File c t)
  | Some (Dir s t) => Ok (Dir s t)
  | None => Throw (errno "ENOENT" p)
  end.

Definition statsOf (n : node) : Stats :=
  match n with
  | File c t => {| size := Z.of_nat (String.length c); mtime := t; isDirectory := false |}
  | Dir s t => {| size := s; mtime := t; isDirectory := true |}
  end.

Fixpoint isPrefix (k k' : list string) : bool :=
  match k, k' with
  | [], _ => true
  | _ :: _, [] => false
  | x :: r, y :: r' => String.eqb x y && isPrefix r r'
  end.

(** Create every missing directory along [pre ++ rest]. *)
Fixpoint mkdirp (t : Date) (pre rest : list string) (m : gmap (list string) node)
  : option (gmap (list string) node) :=
  match m !! pre with
  | Some (File _ _) => None
  | here =>
      let m' := match here with None => <[pre := Dir 4096 t]> m | _ => m end in
      match rest with
      | [] => Some m'
      | x :: rest' => mkdirp t (pre ++ [x]) rest' m'
      end
  end.

Definition removeTree (k : list string) (m : gmap (list string) node)
  : gmap (list string) node :=
  filter (fun kv => isPrefix k kv.1 = false) m.

(** Move the subtree rooted at [src] to [dst]. *)
Definition moveTree (src dst : list string) (m : gmap (list string) node)
  : gmap (list string) node :=
  let moved :=
    map (fun kv : list string * node => (dst ++ List.skipn (length src) kv.1, kv.2))
        (map_to_list (filter (fun kv => isPrefix src kv.1 = true) m)) in
  list_to_map moved ∪ removeTree dst (removeTree src m).

End FS.

Import FS.

Declare Scope fs_scope.
Notation "'let*' x ':=' m 'in' k" := (FS.bind m (fun x => k))
  (at level 10, x pattern, m at level 100, k at level 200) : fs_scope.
Notation "m ';;' k" := (FS.bind m (fun _ => k))
  (at level 100, k at level 200, right associativity) : fs_scope.
Local Open Scope fs_scope.

Module Fs.

(** [fs.existsSync(p)]. *)
Definition existsSync (p : string) : M bool :=
  record OpExists (pathKey p) ;;
  let* m := getFiles in
  ret (match nodeAt m p with Ok _ => true | Throw _ => false end).

(** [fs.stat(p)] / [fs.statSync(p)]. *)
Definition stat (p : string) : M Stats :=
  record OpStat (pathKey p) ;;
  let* m := getFiles in
  match nodeAt m p with
  | Ok n => ret (statsOf n)
  | Throw e => throw e
  end.

(** [fs.readFileSync(p)]. *)
Definition readFileSync (p : string) : M string :=
  record OpRead (pathKey p) ;;
  let* m := getFiles in
  match nodeAt m p with
  | Ok (File c _) => ret c
  | Ok (Dir _ _) => throw (errno "EISDIR" p)
  | Throw e => throw e
  end.

(** [fs.createReadStream(p, { start, end })] (both bounds inclusive; the
    whole file without bounds).  Bounds that are not integers with
    [0 <= start <= end] make the call itself throw; otherwise the result is
    the bytes the stream delivers, or the error it emits instead. *)
Definition createReadStream (p : string) (bounds : option (jsnum * jsnum))
  : M (outcome string) :=
  match bounds with
  | Some (NaN, _) | Some (_, NaN) => throw (mkError "RangeError" "ERR_OUT_OF_RANGE" p)
  | Some (Num s, Num e) =>
      if (s <? 0) || (e <? s) then throw (mkError "RangeError" "ERR_OUT_OF_RANGE" p)
      else
        record OpOpen (pathKey p) ;;
        let* m := getFiles in
        match nodeAt m p with
        | Ok (File c _) =>
            ret (Ok (String.substring (Z.to_nat s) (Z.to_nat (e - s + 1)) c))
        | Ok (Dir _ _) => ret (Throw (errno "EISDIR" p))
        | Throw e => ret (Throw e)
        end
  | None =>
      record OpOpen (pathKey p) ;;
      let* m := getFiles in
      match nodeAt m p with
      | Ok (File c _) => ret (Ok c)
      | Ok (Dir _ _) => ret (Throw (errno "EISDIR" p))
      | Throw e => ret (Throw e)
      end
  end.

Definition parentIsDir (m : gmap (list string) node) (k : list string) : bool :=
  match m !! removelast k with
  | Some (Dir _ _) => true
  | _ => false
  end.

(** [fs.writeFileSync(p, data)]. *)
Definition writeFileSync (p : string) (data : string) : M unit :=
  record OpWrite (pathKey p) ;;
  let* m := getFiles in
  let* t := getNow in
  match m !! pathKey p with
  | Some (Dir _ _) => throw (errno "EISDIR" p)
  | _ =>
      if parentIsDir m (pathKey p) && negb (endsWith p "/")
      then putFiles (<[pathKey p := File data t]> m)
      else throw (errno "ENOENT" p)
  end.

(** [fs.appendFileSync(p, data)]. *)
Definition appendFileSync (p : string) (data : string) : M unit :=
  record OpAppend (pathKey p) ;;
  let* m := getFiles in
  let* t := getNow in
  match m !! pathKey p with
  | Some (Dir _ _) => throw (errno "EISDIR" p)
  | Some (File c _) =>
      if endsWith p "/" then throw (errno "ENOTDIR" p)
      else putFiles (<[pathKey p := File (c +:+ data) t]> m)
  | None =>
      if parentIsDir m (pathKey p) && negb (endsWith p "/")
      then putFiles (<[pathKey p := File data t]> m)
      else throw (errno "ENOENT" p)
  end.

(** [fs.mkdirSync(p, { recursive: true })]. *)
Definition mkdirSync (p : string) : M unit :=
  record OpMkdir (pathKey p) ;;
  let* m := getFiles in
  let* t := getNow in
  match mkdirp t [] (pathKey p) m with
  | Some m' => putFiles m'
  | None => throw (errno "EEXIST" p)
  end.

(** [fs.rmSync(p, { recursive: true, force: true })]. *)
Definition rmSync (p : string) : M unit :=
  record OpRm (pathKey p) ;;
  let* m := getFiles in
  putFiles (removeTree (pathKey p) m).

(** [fs.renameSync(oldPath, newPath)]. *)
Definition renameSync (oldPath newPath : string) : M unit :=
  record OpRename (pathKey oldPath) ;;
  let* m := getFiles in
  match nodeAt m oldPath with
  | Ok _ =>
      if parentIsDir m (pathKey newPath)
      then putFiles (moveTree (pathKey oldPath) (pathKey newPath) m)
      else throw (errno "ENOENT" newPath)
  | Throw e => throw e
  end.

(** [fs.unlinkSync(p)]. *)
Definition unlinkSync (p : string) : M unit :=
  record OpUnlink (pathKey p) ;;
  let* m := getFiles in
  match nodeAt m p with
  | Ok (File _ _) => putFiles (delete (pathKey p) m)
  | Ok (Dir _ _) => throw (errno "EISDIR" p)
  | Throw e => throw e
  end.

End Fs.

(** Express response methods. *)
Module Res.

Definition status (c : Z) : M unit :=
  let* r := getRes in putRes (withStatus c r).

(** [res.set({ k1: v1, ... })]. *)
Definition set (fields : list (string * string)) : M unit :=
  let* r := getRes in putRes (withHeaders fields r).

(** [res.end()]. *)
Definition end_ : M unit :=
  let* r := getRes in putRes (withPayload (payload r) r).

(** [res.json(value)]. *)
Definition json (j : Http.json) : M unit :=
  let* r := getRes in putRes (withPayload (Json j) r).

(** [res.send(data)], and [stream.pipe(res)] for a stream that delivers
    [data] in full. *)
Definition send (data : string) : M unit :=
  let* r := getRes in putRes (withPayload (Bytes data) r).

End Res.

(** The object [{ start, end, chunkSize }] returned by both [parseRange]
    functions. *)
Record RangeData := mkRange { start : jsnum; end_ : jsnum; chunkSize : jsnum }.

(** ** services/videoStreamService.js *)

Module VideoStreamService.

(** [VideoStreamService.parseRange(range, fileSize)]; [None] is [null]. *)
Definition parseRange (range : option string) (fileSize : Z) : option RangeData :=
  match range with
  | None => None
  | Some r =>
      if negb (truthy range) || negb (startsWith r "bytes=") then None
      else
        let parts := split "-" (replace r "bytes=" "") in
        let start := parseInt (default "undefined" (parts !! 0%nat)) (Some 10) in
        let end_ :=
          if truthy (parts !! 1%nat)
          then parseInt (default "undefined" (parts !! 1%nat)) (Some 10)
          else Num (fileSize - 1) in
        if isNaN start || isNaN end_ || geq start (Num fileSize)
           || geq end_ (Num fileSize) || gt start end_
        then None
        else Some {| start := start; end_ := end_;
                     chunkSize := add (sub end_ start) (Num 1) |}
  end.

Definition mimeTypes : list (string * string) :=
  [ (".mp4", "video/mp4"); (".webm", "video/webm"); (".ogg", "video/ogg");
    (".avi", "video/x-msvideo"); (".mov", "video/quicktime");
    (".mkv", "video/x-matroska"); (".m4v", "video/x-m4v") ].

(** [VideoStreamService.getVideoMimeType(filePath)]. *)
Definition getVideoMimeType (filePath : string) : string :=
  let ext := toLowerCase (Path.extname filePath) in
  default "video/mp4" (header ext mimeTypes).

(** [VideoStreamService.isValidVideoFile(filePath)]. *)
Definition isValidVideoFile (filePath : string) : bool :=
  let allowedExtensions := [".mp4"; ".webm"; ".ogg"; ".avi"; ".mov"; ".mkv"; ".m4v"] in
  let ext := toLowerCase (Path.extname filePath) in
  existsb (String.eqb ext) allowedExtensions.

Definition etagOf (stats : Stats) : string :=
  dquote +:+ toString (Num (size stats)) +:+ "-"
         +:+ toString (Num (getTime (mtime stats))) +:+ dquote.

(** [stream.on('error', ...)] followed by [stream.pipe(res)]. *)
Definition pipe (stream : outcome string) : M unit :=
  match stream with
  | Ok data => Res.send data
  | Throw error =>
      logger "error" "Stream error:" ;;
      let* r := getRes in
      if negb (headersSent r) then Res.status 500 ;; Res.end_ else ret tt
  end.

(** [VideoStreamService.streamVideo(filePath, req, res)]. *)
Definition streamVideo (filePath : string) (req : Request) : M unit :=
  tryCatch
    (let* stats := Fs.stat filePath in
     let fileSize := size stats in
     let range := Http.range req in
     if truthy range then
       let rangeData := parseRange range fileSize in
       match rangeData with
       | None =>
           Res.status 416 ;;
           Res.set [ ("Content-Range", "bytes */" +:+ toString (Num fileSize));
                     ("Accept-Ranges", "bytes");
                     ("Content-Type", "video/mp4") ] ;;
           Res.end_
       | Some {| start := start; end_ := end_; chunkSize := chunkSize |} =>
           Res.status 206 ;;
           Res.set [ ("Content-Range",
                      "bytes " +:+ toString start +:+ "-" +:+ toString end_
                               +:+ "/" +:+ toString (Num fileSize));
                     ("Accept-Ranges", "bytes");
                     ("Content-Length", toString chunkSize);
                     ("Content-Type", getVideoMimeType filePath);
                     ("Cache-Control", "public, max-age=3600");
                     ("Last-Modified", toUTCString (mtime stats));
                     ("ETag", etagOf stats) ] ;;
           let* stream := Fs.createReadStream filePath (Some (start, end_)) in
           pipe stream ;;
           logger "info" "Streaming range"
       end
     else
       Res.set [ ("Content-Length", toString (Num fileSize));
                 ("Content-Type", getVideoMimeType filePath);
                 ("Accept-Ranges", "bytes");
                 ("Cache-Control", "public, max-age=3600");
                 ("Last-Modified", toUTCString (mtime stats));
                 ("ETag", etagOf stats) ] ;;
       let* stream := Fs.createReadStream filePath None in
       pipe stream ;;
       logger "info" "Streaming entire file")
    (fun error =>
       logger "error" "Error streaming video:" ;;
       if String.eqb (code error) "ENOENT" then
         Res.status 404 ;; Res.json (JObj [("error", JStr "Video file not found")])
       else
         Res.status 500 ;; Res.json (JObj [("error", JStr "Internal server error")])).

(** The object returned by [getVideoMetadata]. *)
Module Metadata.
Record t := mk {
  filename : string;
  size : Z;
  mimeType : string;
  lastModified : Date;
  supportsRangeRequests : bool
}.
End Metadata.


End VideoStreamService.

(** ** services/r2StreamService.js *)

Module R2StreamService.

(** The instance state set up by the constructor; the object-store client
    itself is an external collaborator. *)
Record t := mk { endpoint : string; bucketName : string }.

(** [R2StreamService.prototype.parseRange(range, fileSize)]. *)
Definition parseRange (this : t) (range : option string) (fileSize : Z)
  : option RangeData :=
  match range with
  | None => None
  | Some r =>
      if negb (truthy range) || negb (startsWith r "bytes=") then None
      else
        let parts := split "-" (replace r "bytes=" "") in
        let start := parseInt (default "undefined" (parts !! 0%nat)) (Some 10) in
        let end_ :=
          if truthy (parts !! 1%nat)
          then parseInt (default "undefined" (parts !! 1%nat)) (Some 10)
          else Num (fileSize - 1) in
        if isNaN start || isNaN end_ || geq start (Num fileSize)
           || geq end_ (Num fileSize) || gt start end_
        then None
        else Some {| start := start; end_ := end_;
                     chunkSize := add (sub end_ start) (Num 1) |}
  end.


End R2StreamService.

(** ** services/hlsService.js *)

(** [obj[key] = value] on an object used as a map: an existing property
    keeps its place, a new one is added last. *)
Fixpoint objSet {V} (key : string) (value : V) (obj : list (string * V))
  : list (string * V) :=
  match obj with
  | [] => [(key, value)]
  | (k, v) :: rest =>
      if String.eqb k key then (key, value) :: rest else (k, v) :: objSet key value rest
  end.

(** [list.forEach(f)] for an effectful [f]. *)
Fixpoint forEach {A} (l : list A) (f : A -> M unit) : M unit :=
  match l with
  | [] => ret tt
  | x :: rest => f x ;; forEach rest f
  end.

Module HLSService.

Record t := mk { hlsDir : string }.

(** The part of the constructor that fixes the instance state; [dirname] is
    the module's [__dirname]. *)
Definition new (dirname : string) : t :=
  {| hlsDir := Path.join [dirname; "../../hls"] |}.

(** [ensureHLSDirectory()]. *)
Definition ensureHLSDirectory (this : t) : M unit :=
  tryCatch (Fs.mkdirSync (hlsDir this))
           (fun error => logger "error" "Error creating HLS directory:").

Record Quality := mkQuality {
  name : string; width : Z; height : Z; bitrate : string; audioBitrate : string
}.

Module Options.
Record t := mk {
  segmentDuration : option Z;
  playlistSize : option Z;
  qualities : option (list Quality)
}.
Definition empty : t :=
  {| segmentDuration := None; playlistSize := None; qualities := None |}.
End Options.

Definition defaultQualities : list Quality :=
  [ {| name := "720p"; width := 1280; height := 720; bitrate := "2500k"; audioBitrate := "128k" |};
    {| name := "480p"; width := 854; height := 480; bitrate := "1000k"; audioBitrate := "96k" |};
    {| name := "360p"; width := 640; height := 360; bitrate := "600k"; audioBitrate := "64k" |} ].

(** [createMasterPlaylist(qualities, outputName)]. *)
Definition createMasterPlaylist (qualities : list Quality) (outputName : string)
  : string :=
  fold_left
    (fun playlist quality =>
       let bandwidth :=
         mul (parseInt (replace (bitrate quality) "k" "") None) (Num 1000) in
       let playlist :=
         playlist +:+ ("#EXT-X-STREAM-INF:BANDWIDTH=" +:+ toString bandwidth
                       +:+ ",RESOLUTION=" +:+ toString (Num (width quality))
                       +:+ "x" +:+ toString (Num (height quality)) +:+ nl) in
       playlist +:+ (name quality +:+ "/playlist.m3u8" +:+ nl +:+ nl))
    qualities
    ("#EXTM3U" +:+ nl +:+ "#EXT-X-VERSION:3" +:+ nl +:+ nl).

Record QualityResult := mkQualityResult { playlist : string; directory : string }.

(** The value the conversion promise resolves with. *)
Module Result.
Record t := mk {
  masterPlaylist : string;
  qualities : list (string * QualityResult);
  outputDir : string
}.
End Result.

Inductive Promise : Type :=
  | Pending
  | Resolved (value : Result.t)
  | Rejected (error : JsError).

(** [resolve(value)] and [reject(error)]: only the first call settles the
    promise. *)
Definition resolve (value : Result.t) (p : Promise) : Promise :=
  match p with Pending => Resolved value | _ => p end.

Definition reject (error : JsError) (p : Promise) : Promise :=
  match p with Pending => Rejected error | _ => p end.

(** The variables of one [convertToHLS] call that its event handlers close
    over, and the promise it returned. *)
Module Job.
Record t := mk {
  outputName : string;
  outputDir : string;
  qualities : list Quality;
  completedQualities : Z;
  totalQualities : Z;
  results : list (string * QualityResult);
  promise : Promise
}.
End Job.

(** The body of the promise executor of [convertToHLS], up to the launch of
    the encoders. *)
Definition executor (this : t) (inputPath outputName : string) (options : Options.t)
  : M Job.t :=
  let outputDir := Path.join [hlsDir this; outputName] in
  Fs.mkdirSync outputDir ;;
  let qualities := default defaultQualities (Options.qualities options) in
  let totalQualities := Z.of_nat (length qualities) in
  let masterPlaylist := createMasterPlaylist qualities outputName in
  Fs.writeFileSync (Path.join [outputDir; "master.m3u8"]) masterPlaylist ;;
  forEach qualities (fun quality =>
    let qualityDir := Path.join [outputDir; name quality] in
    Fs.mkdirSync qualityDir) ;;
  ret {| Job.outputName := outputName; Job.outputDir := outputDir;
         Job.qualities := qualities; Job.completedQualities := 0;
         Job.totalQualities := totalQualities; Job.results := [];
         Job.promise := Pending |}.

(** [convertToHLS(inputPath, outputName, options)] up to the point where it
    returns its promise; an exception in the executor rejects the promise. *)
Definition convertToHLS (this : t) (inputPath outputName : string) (options : Options.t)
  : M Job.t :=
  tryCatch (executor this inputPath outputName options)
    (fun error =>
       let qualities := default defaultQualities (Options.qualities options) in
       ret {| Job.outputName := outputName;
              Job.outputDir := Path.join [hlsDir this; outputName];
              Job.qualities := qualities; Job.completedQualities := 0;
              Job.totalQualities := Z.of_nat (length qualities); Job.results := [];
              Job.promise := Rejected error |}).

(** The text transformation that the 'end' handler applies to the media
    playlist file (the finalization step of the specification). *)
Definition finalizeMedia (playlistContent : string) : string :=
  if negb (includes playlistContent "#EXT-X-ENDLIST")
  then playlistContent +:+ ("#EXT-X-ENDLIST" +:+ nl)
  else playlistContent.

(** The 'end' handler of the encoder of [quality].  The resolved value
    holds the results as they are when the promise is resolved. *)
Definition onEnd (job : Job.t) (quality : Quality) : M Job.t :=
  let qualityDir := Path.join [Job.outputDir job; name quality] in
  let qualityPlaylist := Path.join [qualityDir; "playlist.m3u8"] in
  logger "info" ("HLS conversion completed for " +:+ name quality) ;;
  let* playlistContent := Fs.readFileSync qualityPlaylist in
  (if negb (includes playlistContent "#EXT-X-ENDLIST")
   then Fs.appendFileSync qualityPlaylist ("#EXT-X-ENDLIST" +:+ nl)
   else ret tt) ;;
  let results :=
    objSet (name quality)
      {| playlist := Job.outputName job +:+ "/" +:+ name quality +:+ "/playlist.m3u8";
         directory := qualityDir |}
      (Job.results job) in
  let completedQualities := Job.completedQualities job + 1 in
  let promise :=
    if completedQualities =? Job.totalQualities job
    then resolve {| Result.masterPlaylist := Job.outputName job +:+ "/master.m3u8";
                    Result.qualities := results;
                    Result.outputDir := Job.outputDir job |}
                 (Job.promise job)
    else Job.promise job in
  ret {| Job.outputName := Job.outputName job; Job.outputDir := Job.outputDir job;
         Job.qualities := Job.qualities job;
         Job.completedQualities := completedQualities;
         Job.totalQualities := Job.totalQualities job;
         Job.results := results; Job.promise := promise |}.

(** The 'error' handler of the encoder of [quality]. *)
Definition onError (job : Job.t) (quality : Quality) (error : JsError) : M Job.t :=
  logger "error" ("HLS conversion error for " +:+ name quality +:+ ":") ;;
  ret {| Job.outputName := Job.outputName job; Job.outputDir := Job.outputDir job;
         Job.qualities := Job.qualities job;
         Job.completedQualities := Job.completedQualities job;
         Job.totalQualities := Job.totalQualities job;
         Job.results := Job.results job;
         Job.promise := reject error (Job.promise job) |}.

(** What the environment does while the conversion runs: the encoder of the
    [i]-th quality writes an output file, or reports its end or an error. *)
Inductive Event : Type :=
  | EncoderWrite (path : string) (content : string)
  | End (i : nat)
  | Error (i : nat) (error : JsError).

(** The encoder writes (or rewrites) a file in an existing directory. *)
Definition encoderWrite (path content : string) : M unit :=
  let* m := getFiles in
  let* t := getNow in
  match m !! pathKey path with
  | Some (Dir _ _) => ret tt
  | _ =>
      if Fs.parentIsDir m (pathKey path) && negb (endsWith path "/")
      then putFiles (<[pathKey path := File content t]> m)
      else ret tt
  end.

Definition handle (job : Job.t) (ev : Event) : M Job.t :=
  match ev with
  | EncoderWrite path content => encoderWrite path content ;; ret job
  | End i =>
      match Job.qualities job !! i with
      | Some quality => onEnd job quality
      | None => ret job
      end
  | Error i error =>
      match Job.qualities job !! i with
      | Some quality => onError job quality error
      | None => ret job
      end
  end.

(** The handlers run one after the other, in the order of the events; an
    exception thrown by a handler is not caught. *)
Fixpoint runEncoders (job : Job.t) (events : list Event) : M Job.t :=
  match events with
  | [] => ret job
  | ev :: rest => let* job' := handle job ev in runEncoders job' rest
  end.

(** [getPlaylist(playlistPath)]. *)
Definition getPlaylist (this : t) (playlistPath : string) : M string :=
  tryCatch
    (let fullPath := Path.join [hlsDir this; playlistPath] in
     let* content := Fs.readFileSync fullPath in
     ret content)
    (fun error => logger "error" "Error reading playlist:" ;; throw error).

(** [getSegment(segmentPath)]. *)
Definition getSegment (this : t) (segmentPath : string) : M string :=
  tryCatch
    (let fullPath := Path.join [hlsDir this; segmentPath] in
     Fs.readFileSync fullPath)
    (fun error => logger "error" "Error reading segment:" ;; throw error).

(** [deleteStream(streamName)]. *)
Definition deleteStream (this : t) (streamName : string) : M unit :=
  tryCatch
    (let streamPath := Path.join [hlsDir this; streamName] in
     let* present := Fs.existsSync streamPath in
     if present then
       Fs.rmSync streamPath ;;
       logger "info" ("Deleted HLS stream: " +:+ streamName)
     else ret tt)
    (fun error => logger "error" "Error deleting stream:" ;; throw error).

(** [streamExists(streamName)]. *)
Definition streamExists (this : t) (streamName : string) : M bool :=
  let streamPath := Path.join [hlsDir this; streamName] in
  let masterPlaylist := Path.join [streamPath; "master.m3u8"] in
  Fs.existsSync masterPlaylist.

End HLSService.

(** ** routes/videoRoutes.js *)

Module VideoRoutes.

Definition videosDir (dirname : string) : string :=
  Path.join [dirname; "../../videos"].

(** [GET /api/video/local/:filename]. *)
Definition getLocal (dirname : string) (filename : string) (req : Request) : M unit :=
  tryCatch
    (let sanitizedFilename := Path.basename filename in
     let filePath := Path.join [videosDir dirname; sanitizedFilename] in
     if negb (VideoStreamService.isValidVideoFile filePath) then
       Res.status 400 ;;
       Res.json (JObj [ ("error", JStr "Invalid file type");
                        ("message", JStr "Only video files are allowed") ])
     else
       let* present := Fs.existsSync filePath in
       if negb present then
         Res.status 404 ;;
         Res.json (JObj [ ("error", JStr "Video not found");
                          ("message", JStr ("Video file '" +:+ sanitizedFilename
                                            +:+ "' not found")) ])
       else VideoStreamService.streamVideo filePath req)
    (fun error =>
       logger "error" "Error in local video streaming:" ;;
       Res.status 500 ;;
       Res.json (JObj [ ("error", JStr "Internal server error");
                        ("message", JStr "Failed to stream video") ])).

End VideoRoutes.

(** ** routes/hlsRoutes.js *)

Module HlsRoutes.

Import HLSService.

Definition streamNotFound (stream : string) : M unit :=
  Res.status 404 ;;
  Res.json (JObj [ ("error", JStr "Stream not found");
                   ("message", JStr ("HLS stream '" +:+ stream +:+ "' not found")) ]).

(** [GET /api/hls/:stream/master.m3u8]. *)
Definition getMasterPlaylist (hlsService : HLSService.t) (stream : string) : M unit :=
  tryCatch
    (let* present := streamExists hlsService stream in
     if negb present then streamNotFound stream
     else
       let* playlist := getPlaylist hlsService (stream +:+ "/master.m3u8") in
       Res.set [ ("Content-Type", "application/vnd.apple.mpegurl");
                 ("Cache-Control", "no-cache, no-store, must-revalidate");
                 ("Pragma", "no-cache");
                 ("Expires", "0");
                 ("Access-Control-Allow-Origin", "*");
                 ("Access-Control-Allow-Headers", "Range") ] ;;
       Res.send playlist ;;
       logger "info" ("Served master playlist for stream: " +:+ stream))
    (fun error =>
       logger "error" "Error serving master playlist:" ;;
       Res.status 500 ;;
       Res.json (JObj [ ("error", JStr "Internal server error");
                        ("message", JStr "Failed to serve master playlist") ])).

(** [GET /api/hls/:stream/:quality/playlist.m3u8]. *)
Definition getQualityPlaylist (hlsService : HLSService.t) (stream quality : string)
  : M unit :=
  tryCatch
    (let* present := streamExists hlsService stream in
     if negb present then streamNotFound stream
     else
       let* playlist :=
         getPlaylist hlsService (stream +:+ "/" +:+ quality +:+ "/playlist.m3u8") in
       Res.set [ ("Content-Type", "application/vnd.apple.mpegurl");
                 ("Cache-Control", "public, max-age=10");
                 ("Access-Control-Allow-Origin", "*");
                 ("Access-Control-Allow-Headers", "Range") ] ;;
       Res.send playlist ;;
       logger "info" ("Served " +:+ quality +:+ " playlist for stream: " +:+ stream))
    (fun error =>
       logger "error" "Error serving quality playlist:" ;;
       Res.status 500 ;;
       Res.json (JObj [ ("error", JStr "Internal server error");
                        ("message", JStr "Failed to serve playlist") ])).

(** [GET /api/hls/:stream/:quality/:segment]. *)
Definition getSegmentRoute (hlsService : HLSService.t) (stream quality segment : string)
  : M unit :=
  tryCatch
    (if negb (endsWith segment ".ts") then
       Res.status 400 ;;
       Res.json (JObj [ ("error", JStr "Invalid segment");
                        ("message", JStr "Only .ts segments are allowed") ])
     else
       let* present := streamExists hlsService stream in
       if negb present then streamNotFound stream
       else
         let* segmentData :=
           getSegment hlsService (stream +:+ "/" +:+ quality +:+ "/" +:+ segment) in
         Res.set [ ("Content-Type", "video/mp2t");
                   ("Cache-Control", "public, max-age=31536000");
                   ("Access-Control-Allow-Origin", "*");
                   ("Content-Length",
                    toString (Num (Z.of_nat (String.length segmentData)))) ] ;;
         Res.send segmentData ;;
         logger "debug" ("Served segment " +:+ segment))
    (fun error =>
       logger "error" "Error serving segment:" ;;
       if String.eqb (code error) "ENOENT" then
         Res.status 404 ;;
         Res.json (JObj [ ("error", JStr "Segment not found");
                          ("message", JStr "The requested segment was not found") ])
       else
         Res.status 500 ;;
         Res.json (JObj [ ("error", JStr "Internal server error");
                          ("message", JStr "Failed to serve segment") ])).

(** [DELETE /api/hls/:stream]. *)
Definition deleteRoute (hlsService : HLSService.t) (stream : string) : M unit :=
  tryCatch
    (let* present := streamExists hlsService stream in
     if negb present then streamNotFound stream
     else
       deleteStream hlsService stream ;;
       Res.json (JObj [ ("message", JStr ("Stream '" +:+ stream
                                          +:+ "' deleted successfully")) ]) ;;
       logger "info" ("Deleted HLS stream: " +:+ stream))
    (fun error =>
       logger "error" "Error deleting stream:" ;;
       Res.status 500 ;;
       Res.json (JObj [ ("error", JStr "Internal server error");
                        ("message", JStr "Failed to delete stream") ])).

(** [POST /api/hls/convert].  The handler answers, starts the conversion
    and returns; [events] is what the encoders do afterwards. *)
Definition postConvert (hlsService : HLSService.t)
    (inputPath outputName : option string) (options : option Options.t)
    (events : list Event) : M unit :=
  let* started :=
    tryCatch
      (if negb (truthy inputPath) || negb (truthy outputName) then
         Res.status 400 ;;
         Res.json (JObj [ ("error", JStr "Missing parameters");
                          ("message", JStr "inputPath and outputName are required") ]) ;;
         ret None
       else
         Res.json (JObj [ ("message", JStr "HLS conversion started");
                          ("outputName", JStr (default "" outputName));
                          ("status", JStr "processing") ]) ;;
         let* job := convertToHLS hlsService (default "" inputPath)
                       (default "" outputName) (default Options.empty options) in
         ret (Some job))
      (fun error =>
         logger "error" "Error starting HLS conversion:" ;;
         Res.status 500 ;;
         Res.json (JObj [ ("error", JStr "Internal server error");
                          ("message", JStr "Failed to start conversion") ]) ;;
         ret None) in
  match started with
  | None => ret tt
  | Some job =>
      let* job' := runEncoders job events in
      match Job.promise job' with
      | Resolved result =>
          logger "info" ("HLS conversion completed for " +:+ default "" outputName +:+ ":")
      | Rejected error =>
          logger "error" ("HLS conversion failed for " +:+ default "" outputName +:+ ":")
      | Pending => ret tt
      end
  end.

End HlsRoutes.

(** ** routes/uploadRoutes.js *)

Module UploadRoutes.

Import HLSService.



Definition videosDir (dirname : string) : string :=
  Path.join [dirname; "../../videos"].





(** The file as the upload middleware presents it to [storage.filename]
    and to [fileFilter], before it is stored. *)
Module Incoming.
Record t := mk { fieldname : string; originalname : string; mimetype : string }.
End Incoming.

(** [storage.filename]: the name under which the upload is stored.  [now]
    is [Date.now()] and [random] is [Math.round(Math.random() * 1E9)]. *)
Definition storageFilename (now random : Z) (file : Incoming.t) : string :=
  let uniqueSuffix := toString (Num now) +:+ "-" +:+ toString (Num random) in
  let extension := Path.extname (Incoming.originalname file) in
  Incoming.fieldname file +:+ "-" +:+ uniqueSuffix +:+ extension.

(** [fileFilter]: [Ok true] is [cb(null, true)], [Throw error] is
    [cb(error, false)]. *)
Definition fileFilter (file : Incoming.t) : outcome bool :=
  let allowedTypes :=
    ["video/mp4"; "video/avi"; "video/mov"; "video/mkv"; "video/webm"] in
  let allowedExtensions := [".mp4"; ".avi"; ".mov"; ".mkv"; ".webm"] in
  let extension := toLowerCase (Path.extname (Incoming.originalname file)) in
  if existsb (String.eqb (Incoming.mimetype file)) allowedTypes
     || existsb (String.eqb extension) allowedExtensions
  then Ok true
  else Throw {| FS.name := "Error"; FS.code := "";
                FS.message := "Invalid file type. Only video files are allowed." |}.

End UploadRoutes.

(** ** Vocabulary of the specification *)

Definition isDigit (c : ascii) : bool := (48 <=? JS.code c) && (JS.code c <=? 57).

Fixpoint hasChar (c : ascii) (s : string) : bool :=
  match s with
  | EmptyString => false
  | String d s' => Ascii.eqb d c || hasChar c s'
  end.

Fixpoint allDigits (s : string) : bool :=
  match s with
  | EmptyString => true
  | String c s' => isDigit c && allDigits s'
  end.


(** The decimal numeral of a non-negative integer, as a client would write
    it in a header. *)
Definition decimal (n : Z) : string := toString (Num n).











(** A path segment: a text without separator. *)
Definition slashFree (seg : string) : Prop := hasChar "/" seg = false.

(** Every entry of the store other than the root lies in a directory of
    the store. *)
Definition wellFormedStore (m : gmap (list string) node) : bool :=
  forallb (fun kv : list string * node =>
             match kv.1 with
             | [] => true
             | _ :: _ => Fs.parentIsDir m kv.1
             end)
          (map_to_list m).











Definition endlistTag : string := "#EXT-X-ENDLIST".



(** The response to a request, read off the world after the handler. *)
Definition responseOf {A} (run : outcome A * World) : Response := res run.2.



(** ** Sample data

    A small installation under [/app], used to exercise the statements:
    one 1000-byte video, one packaged stream [s], and one file that lies
    outside both the videos and the HLS directory. *)

Definition sampleDate : Date :=
  {| getTime := 1700000000000; toUTCString := "Tue, 14 Nov 2023 22:13:20 GMT" |}.

Fixpoint repeatString (n : nat) (s : string) : string :=
  match n with
  | O => EmptyString
  | S n' => s +:+ repeatString n' s
  end.

Definition sampleVideo : string := repeatString 100 "0123456789".

Definition sampleFiles : gmap (list string) node :=
  list_to_map
    [ ([], Dir 4096 sampleDate);
      (["app"], Dir 4096 sampleDate);
      (["app"; "secret.ts"], File "TOPSECRET" sampleDate);
      (["app"; "uploads"], Dir 4096 sampleDate);
      (["app"; "uploads"; "video-17.mp4"], File sampleVideo sampleDate);
      (["app"; "videos"], Dir 4096 sampleDate);
      (["app"; "videos"; "a.mp4"], File sampleVideo sampleDate);
      (["app"; "hls"], Dir 4096 sampleDate);
      (["app"; "hls"; "s"], Dir 4096 sampleDate);
      (["app"; "hls"; "s"; "master.m3u8"], File "#EXTM3U" sampleDate);
      (["app"; "hls"; "s"; "720p"], Dir 4096 sampleDate);
      (["app"; "hls"; "s"; "720p"; "playlist.m3u8"], File "#EXTM3U" sampleDate);
      (["app"; "hls"; "s"; "720p"; "segment_000.ts"], File "segment-bytes" sampleDate) ].

Definition sampleWorld : World :=
  {| files := sampleFiles; now := sampleDate; log := []; res := fresh; logged := [] |}.


Definition sampleHls : HLSService.t := HLSService.new "/app/src/services".


Definition encoderFailure : JsError :=
  {| name := "Error"; code := ""; message := "ffmpeg exited with code 1" |}.

Definition emptyJob : HLSService.Job.t :=
  {| HLSService.Job.outputName := ""; HLSService.Job.outputDir := "";
     HLSService.Job.qualities := []; HLSService.Job.completedQualities := 0;
     HLSService.Job.totalQualities := 0; HLSService.Job.results := [];
     HLSService.Job.promise := HLSService.Pending |}.

Definition jobOf (run : outcome HLSService.Job.t * World) : HLSService.Job.t :=
  match run.1 with Ok job => job | Throw _ => emptyJob end.

Definition samplePlaylist : string :=
  "#EXTM3U" +:+ nl +:+ "#EXTINF:10.0," +:+ nl +:+ "segment_000.ts" +:+ nl.

(** The conversion of the sample upload with the default renditions: the
    first two encoders write their playlist and end, the third fails. *)
Definition sampleStart : outcome HLSService.Job.t * World :=
  HLSService.convertToHLS sampleHls "/app/uploads/video-17.mp4" "video-17"
    HLSService.Options.empty sampleWorld.

Definition sampleEvents : list HLSService.Event :=
  [ HLSService.EncoderWrite "/app/hls/video-17/720p/playlist.m3u8" samplePlaylist;
    HLSService.End 0;
    HLSService.EncoderWrite "/app/hls/video-17/480p/playlist.m3u8" samplePlaylist;
    HLSService.End 1;
    HLSService.Error 2 encoderFailure ].



(** A job without renditions, and a conversion of the sample upload in
    which the three encoders write their playlist and end. *)
Definition noRenditions : HLSService.Options.t :=
  {| HLSService.Options.segmentDuration := None; HLSService.Options.playlistSize := None;
     HLSService.Options.qualities := Some [] |}.

Definition emptyStart : outcome HLSService.Job.t * World :=
  HLSService.convertToHLS sampleHls "/app/uploads/video-17.mp4" "video-17"
    noRenditions sampleWorld.




(** ** The primitives on samples *)

Example parseInt_samples :
  parseInt "42" (Some 10) = Num 42 /\
  parseInt "  +17px" (Some 10) = Num 17 /\
  parseInt "99,200" (Some 10) = Num 99 /\
  parseInt "" (Some 10) = NaN /\
  parseInt "abc" (Some 10) = NaN /\
  parseInt "0x1f" None = Num 31 /\
  parseInt "2500" None = Num 2500 /\
  parseInt "-12" (Some 10) = Num (-12).
Proof. repeat split; reflexivity. Qed.

Example toString_samples :
  toString (Num 0) = "0" /\ toString (Num 2500000) = "2500000" /\
  toString (Num (-45)) = "-45" /\ toString NaN = "NaN".
Proof. repeat split; reflexivity. Qed.

Example split_samples :
  split "-" "0-499" = ["0"; "499"] /\
  split "-" "-500" = [""; "500"] /\
  split "-" "5-" = ["5"; ""] /\
  split "-" "" = [""] /\
  split "-" "0-99,200-299" = ["0"; "99,200"; "299"].
Proof. repeat split; reflexivity. Qed.

Example path_samples :
  Path.join ["/app/src/services"; "../../hls"] = "/app/hls" /\
  Path.join ["/app/hls"; "s/../../secret.ts"] = "/app/secret.ts" /\
  Path.join ["/app/videos"; ".."] = "/app" /\
  Path.join ["/app/hls"; "s/"] = "/app/hls/s/" /\
  Path.join ["/"; ".."] = "/" /\
  Path.join ["a"; "../../b"] = "../b" /\
  Path.basename "../../etc/passwd.mp4" = "passwd.mp4" /\
  Path.basename "a/b//" = "b" /\
  Path.basename "/" = "" /\
  Path.extname "/x/movie.MP4" = ".MP4" /\
  Path.extname ".bashrc" = "" /\
  Path.extname ".." = "" /\
  Path.extname "a.b/" = ".b" /\
  Path.extname "archive.tar.gz" = ".gz" /\
  Path.parseName "video-17-3.mp4" = "video-17-3".
Proof. repeat split; reflexivity. Qed.

Example parseRange_samples :
  VideoStreamService.parseRange (Some "bytes=0-499") 1000
    = Some {| start := Num 0; end_ := Num 499; chunkSize := Num 500 |} /\
  VideoStreamService.parseRange (Some "bytes=5-") 1000
    = Some {| start := Num 5; end_ := Num 999; chunkSize := Num 995 |} /\
  VideoStreamService.parseRange (Some "bytes=999-2000") 1000 = None /\
  VideoStreamService.parseRange (Some "bytes=-500") 1000 = None /\
  VideoStreamService.parseRange (Some "items=0-5") 1000 = None /\
  VideoStreamService.parseRange None 1000 = None.
Proof. repeat split; reflexivity. Qed.

(** ** Facts about the string primitives *)

#[local] Arguments String.append !_ _ / : simpl nomatch.

Section StringFacts.

Lemma app_assoc_s (a b c : string) : (a +:+ b) +:+ c = a +:+ (b +:+ c).
Proof. induction a as [|x a IH]; simpl; [reflexivity | now f_equal]. Qed.

Lemma app_empty_r (a : string) : a +:+ "" = a.
Proof. induction a as [|x a IH]; simpl; [reflexivity | now f_equal]. Qed.

Lemma length_app_s (a b : string) :
  String.length (a +:+ b) = (String.length a + String.length b)%nat.
Proof. induction a as [|x a IH]; simpl; [reflexivity | now f_equal]. Qed.


Lemma split_nonempty (c : ascii) (s : string) : split c s <> [].
Proof.
  destruct s as [|d s]; simpl; [discriminate|].
  destruct (Ascii.eqb d c); [discriminate|].
  destruct (split c s); discriminate.
Qed.

Lemma split_cons (c d : ascii) (s : string) :
  d <> c -> exists h t, split c s = h :: t /\ split c (String d s) = String d h :: t.
Proof.
  intros Hd. destruct (split c s) as [|h t] eqn:E.
  - now destruct (split_nonempty c s).
  - exists h, t. split; [reflexivity|]. simpl.
    apply Ascii.eqb_neq in Hd. now rewrite Hd, E.
Qed.

(** Splitting distributes over a separator. *)
Lemma split_app_sep (c : ascii) (x y : string) :
  split c (x +:+ String c y) = split c x ++ split c y.
Proof.
  induction x as [|d x IH]; simpl.
  - now rewrite Ascii.eqb_refl.
  - destruct (Ascii.eqb d c) eqn:E.
    + now rewrite IH.
    + rewrite IH. destruct (split c x) as [|h t] eqn:Ex.
      * now destruct (split_nonempty c x).
      * reflexivity.
Qed.

Lemma split_nosep (c : ascii) (x : string) : hasChar c x = false -> split c x = [x].
Proof.
  induction x as [|d x IH]; simpl; [reflexivity|].
  intros H. apply orb_false_iff in H as [Hd Hx].
  now rewrite Hd, (IH Hx).
Qed.


Lemma hasChar_app (c : ascii) (x y : string) :
  hasChar c (x +:+ y) = hasChar c x || hasChar c y.
Proof.
  induction x as [|d x IH]; simpl; [reflexivity|].
  now rewrite IH, orb_assoc.
Qed.

End StringFacts.

(** ** Decimal numerals and [parseInt] *)

Section Numerals.

Lemma digit_cases (d : Z) :
  0 <= d < 10 ->
  d = 0 \/ d = 1 \/ d = 2 \/ d = 3 \/ d = 4 \/ d = 5 \/ d = 6 \/ d = 7 \/ d = 8 \/ d = 9.
Proof. lia. Qed.


Lemma isDigit_digitChar (d : Z) : 0 <= d < 10 -> isDigit (digitChar d) = true.
Proof.
  intros H. destruct (digit_cases d H) as [->|[->|[->|[->|[->|[->|[->|[->|[->| ->]]]]]]]]];
    reflexivity.
Qed.








(** The numeral starts with a digit and consists of digits. *)
Lemma digitsOf_shape (fuel : nat) (n : Z) (acc : string) :
  0 <= n ->
  exists c ds, digitsOf (S fuel) n acc = String c (ds +:+ acc)
               /\ isDigit c = true /\ allDigits ds = true.
Proof.
  revert n acc. induction fuel as [|fuel IH]; intros n acc Hn.
  - exists (digitChar (n mod 10)), "". simpl. rewrite isDigit_digitChar
      by (apply Z.mod_pos_bound; lia). now destruct (n <? 10).
  - assert (Hm : 0 <= n mod 10 < 10) by (apply Z.mod_pos_bound; lia).
    change (digitsOf (S (S fuel)) n acc)
      with (if n <? 10 then String (digitChar (n mod 10)) acc
            else digitsOf (S fuel) (n / 10) (String (digitChar (n mod 10)) acc)).
    destruct (n <? 10).
    + exists (digitChar (n mod 10)), "". now rewrite isDigit_digitChar.
    + destruct (IH (n / 10) (String (digitChar (n mod 10)) acc)) as (c & ds & E & Hc & Hds).
      { apply Z.div_pos; lia. }
      exists c, (ds +:+ String (digitChar (n mod 10)) ""). rewrite E. split; [|split; [exact Hc|]].
      * now rewrite app_assoc_s.
      * clear E. induction ds as [|x ds IHds]; simpl in *.
        -- now rewrite isDigit_digitChar.
        -- apply andb_true_iff in Hds as [Hx Hds]. now rewrite Hx, IHds.
Qed.

Lemma natToString_shape (n : Z) :
  0 <= n ->
  exists c ds, natToString n = String c ds /\ isDigit c = true /\ allDigits ds = true.
Proof.
  intros Hn. destruct (digitsOf_shape (Z.to_nat (Z.log2 n)) n "" Hn) as (c & ds & E & Hc & Hds).
  exists c, ds. unfold natToString, digitFuel. rewrite E, app_empty_r. auto.
Qed.








End Numerals.

(** ** The range resolver *)

Section RangeResolver.

Lemma parseRange_bytes (rest : string) (fileSize : Z) :
  VideoStreamService.parseRange (Some ("bytes=" +:+ rest)) fileSize =
  let parts := split "-" rest in
  let start := parseInt (default "undefined" (parts !! 0%nat)) (Some 10) in
  let end_ :=
    if truthy (parts !! 1%nat)
    then parseInt (default "undefined" (parts !! 1%nat)) (Some 10)
    else Num (fileSize - 1) in
  if isNaN start || isNaN end_ || geq start (Num fileSize)
     || geq end_ (Num fileSize) || gt start end_
  then None
  else Some {| start := start; end_ := end_; chunkSize := add (sub end_ start) (Num 1) |}.
Proof. reflexivity. Qed.



End RangeResolver.

(** ** Running the handlers *)

(** Symbolic execution of a handler: unfold the monad and the primitives,
    then read the fields of the updated world. *)
Ltac mred :=
  cbv beta iota zeta delta
      [bind tryCatch ret throw record getFiles getNow putFiles getRes putRes logger
       Fs.stat Fs.existsSync Fs.createReadStream Fs.readFileSync Fs.rmSync
       Fs.writeFileSync Fs.appendFileSync Fs.mkdirSync Fs.renameSync Fs.unlinkSync
       Res.status Res.set Res.end_ Res.json Res.send VideoStreamService.pipe
       responseOf];
  cbn [fst snd files now log res logged logAccess setFiles setRes addLine
       statsOf size mtime isDirectory Http.range].

Section Responses.

Lemma nodeAt_file (m : gmap (list string) node) (p c : string) (t : Date) :
  m !! pathKey p = Some (File c t) -> endsWith p "/" = false ->
  nodeAt m p = Ok (File c t).
Proof. intros H1 H2. unfold nodeAt. now rewrite H1, H2. Qed.

Lemma header_setHeader (k k' v : string) (hs : list (string * string)) :
  header k (setHeader k' v hs) = if String.eqb k' k then Some v else header k hs.
Proof.
  induction hs as [|[k0 v0] hs IH]; simpl; [reflexivity|].
  destruct (String.eqb_spec k0 k') as [->|Hne]; simpl.
  - now destruct (String.eqb k' k).
  - rewrite IH. destruct (String.eqb_spec k0 k) as [->|Hne'];
      [|reflexivity].
    destruct (String.eqb_spec k' k) as [E|_]; [now destruct Hne | reflexivity].
Qed.

Lemma length_substring (n m : nat) (s : string) :
  (n + m <= String.length s)%nat -> String.length (String.substring n m s) = m.
Proof.
  revert n m. induction s as [|c s IH]; intros n m H; simpl in H.
  - assert (n = 0 /\ m = 0)%nat as [-> ->] by lia. reflexivity.
  - destruct n as [|n]; simpl.
    + destruct m as [|m]; simpl; [reflexivity|]. rewrite IH by lia. reflexivity.
    + apply IH. lia.
Qed.

(** The answer of [streamVideo] when the range is rejected. *)
Lemma streamVideo_rejected (w : World) (filePath content header : string) (t : Date) :
  files w !! pathKey filePath = Some (File content t) ->
  endsWith filePath "/" = false ->
  truthy (Some header) = true ->
  VideoStreamService.parseRange (Some header) (Z.of_nat (String.length content)) = None ->
  responseOf (VideoStreamService.streamVideo filePath {| range := Some header |} w) =
  withPayload (payload (res w))
    (withHeaders
       [ ("Content-Range", "bytes */" +:+ decimal (Z.of_nat (String.length content)));
         ("Accept-Ranges", "bytes"); ("Content-Type", "video/mp4") ]
       (withStatus 416 (res w))).
Proof.
  intros Hf Hs Ht Hp. unfold VideoStreamService.streamVideo. mred.
  rewrite (nodeAt_file _ _ _ _ Hf Hs). mred. rewrite Ht, Hp. mred. reflexivity.
Qed.

(** The answer of [streamVideo] when the range is resolved. *)
Lemma streamVideo_partial (w : World) (filePath content header : string) (t : Date)
    (s e : Z) (len : jsnum) :
  files w !! pathKey filePath = Some (File content t) ->
  endsWith filePath "/" = false ->
  truthy (Some header) = true ->
  VideoStreamService.parseRange (Some header) (Z.of_nat (String.length content))
    = Some {| start := Num s; end_ := Num e; chunkSize := len |} ->
  0 <= s <= e ->
  responseOf (VideoStreamService.streamVideo filePath {| range := Some header |} w) =
  withPayload (Bytes (String.substring (Z.to_nat s) (Z.to_nat (e - s + 1)) content))
    (withHeaders
       [ ("Content-Range",
          "bytes " +:+ decimal s +:+ "-" +:+ decimal e +:+ "/"
                   +:+ decimal (Z.of_nat (String.length content)));
         ("Accept-Ranges", "bytes");
         ("Content-Length", toString len);
         ("Content-Type", VideoStreamService.getVideoMimeType filePath);
         ("Cache-Control", "public, max-age=3600");
         ("Last-Modified", toUTCString t);
         ("ETag", VideoStreamService.etagOf
                    {| size := Z.of_nat (String.length content); mtime := t;
                       isDirectory := false |}) ]
       (withStatus 206 (res w))).
Proof.
  intros Hf Hs Ht Hp Hse. unfold VideoStreamService.streamVideo. mred.
  rewrite (nodeAt_file _ _ _ _ Hf Hs). mred. rewrite Ht, Hp. mred.
  destruct (Z.ltb_spec s 0) as [|_]; [lia|].
  destruct (Z.ltb_spec e s) as [|_]; [lia|].
  cbn [orb]. mred. rewrite (nodeAt_file _ _ _ _ Hf Hs). mred. reflexivity.
Qed.

End Responses.

(** ** C1 and C3: the range resolver and the statuses 206 and 416 *)





(** ** C4 and C10: what both resolvers do with suffix and multi-range headers *)


(** C10.  The two range resolvers are extensionally equal: for every
    header (or missing header) and total size they return the same result. *)
Theorem C10_range_resolvers_agree (this : R2StreamService.t)
    (range : option string) (fileSize : Z) :
  R2StreamService.parseRange this range fileSize
  = VideoStreamService.parseRange range fileSize.
Proof. unfold R2StreamService.parseRange, VideoStreamService.parseRange. reflexivity. Qed.




(** ** C2: the master playlist *)

Section MasterPlaylist.

Import HLSService.


Lemma allDigits_hasChar (c : ascii) (s : string) :
  isDigit c = false -> allDigits s = true -> hasChar c s = false.
Proof.
  intros Hc. induction s as [|d s IH]; simpl; [reflexivity|].
  intros H. apply andb_true_iff in H as [Hd Hs]. rewrite (IH Hs), orb_false_r.
  apply Ascii.eqb_neq. intros ->. congruence.
Qed.

(** A printed number consists of digits, or is "NaN", possibly after "-". *)
Lemma toString_hasChar (c : ascii) (x : jsnum) :
  isDigit c = false -> c <> "-"%char -> c <> "N"%char -> c <> "a"%char ->
  hasChar c (toString x) = false.
Proof.
  intros Hd Hm HN Ha. destruct x as [|z]; unfold toString.
  - cbn [hasChar]. apply Ascii.eqb_neq in HN, Ha.
    rewrite (Ascii.eqb_sym "N"), (Ascii.eqb_sym "a"). now rewrite HN, Ha.
  - assert (Hnat : forall n, 0 <= n -> hasChar c (natToString n) = false).
    { intros n Hn. destruct (natToString_shape n Hn) as (d & ds & -> & Hd1 & Hds).
      apply (allDigits_hasChar c (String d ds) Hd). simpl. now rewrite Hd1, Hds. }
    destruct (Z.ltb_spec z 0).
    + cbn [hasChar]. rewrite Hnat by lia. apply Ascii.eqb_neq in Hm.
      now rewrite (Ascii.eqb_sym "-"), Hm.
    + now apply Hnat.
Qed.







End MasterPlaylist.




(** ** C6: finalizing a media playlist *)

Section Finalize.

Import HLSService.


Lemma includes_cons (c : ascii) (s p : string) :
  includes s p = true -> includes (String c s) p = true.
Proof. intros H. simpl. rewrite H. apply orb_true_r. Qed.

Lemma includes_app_r (a b p : string) :
  includes b p = true -> includes (a +:+ b) p = true.
Proof.
  intros H. induction a as [|c a IH]; [exact H|].
  simpl String.append. now apply includes_cons.
Qed.






Lemma finalizeMedia_present (text : string) :
  includes text endlistTag = true -> finalizeMedia text = text.
Proof. intros H. unfold finalizeMedia. fold endlistTag. now rewrite H. Qed.

Lemma finalizeMedia_absent (text : string) :
  includes text endlistTag = false -> finalizeMedia text = text +:+ (endlistTag +:+ nl).
Proof. intros H. unfold finalizeMedia. fold endlistTag. now rewrite H. Qed.

Lemma finalizeMedia_includes (text : string) :
  includes (finalizeMedia text) endlistTag = true.
Proof.
  destruct (includes text endlistTag) eqn:E.
  - now rewrite finalizeMedia_present.
  - rewrite finalizeMedia_absent by assumption. now apply includes_app_r.
Qed.


End Finalize.



(** ** Paths and store keys *)

Section PathFacts.

Lemma split_sep_cons (c : ascii) (s : string) :
  split c (String c s) = EmptyString :: split c s.
Proof. simpl. now rewrite Ascii.eqb_refl. Qed.

Lemma split_slashFree (c : ascii) (s line : string) :
  line ∈ split c s -> hasChar c line = false.
Proof.
  revert line. induction s as [|d s IH]; intros line; simpl split.
  - intros H. apply list_elem_of_singleton in H as ->. reflexivity.
  - destruct (Ascii.eqb d c) eqn:E.
    + intros H. apply elem_of_cons in H as [->|H]; [reflexivity | now apply IH].
    + destruct (split c s) as [|h t].
      * intros H. apply list_elem_of_singleton in H as ->. simpl. now rewrite E.
      * intros H. apply elem_of_cons in H as [->|H].
        -- simpl. rewrite E. apply IH. now left.
        -- apply IH. now right.
Qed.

Lemma split_join (c : ascii) (parts : list string) :
  parts <> [] -> Forall (fun seg => hasChar c seg = false) parts ->
  split c (JS.join (String c "") parts) = parts.
Proof.
  intros Hne Hall. induction Hall as [|x rest Hx Hrest IH]; [now destruct Hne|].
  destruct rest as [|y rest].
  - simpl. now apply split_nosep.
  - change (JS.join (String c "") (x :: y :: rest))
      with (x +:+ String c (JS.join (String c "") (y :: rest))).
    rewrite split_app_sep, (split_nosep _ _ Hx), IH by discriminate. reflexivity.
Qed.

Lemma normStep_normal (res : list string) (seg : string) :
  Path.isNormalSegment seg = true -> Path.normStep false res seg = res ++ [seg].
Proof.
  unfold Path.isNormalSegment, Path.normStep. intros H.
  apply andb_true_iff in H as [H H3]. apply andb_true_iff in H as [H1 H2].
  apply negb_true_iff in H1, H2, H3. now rewrite H1, H2, H3.
Qed.

Lemma Forall_removelast {A} (P : A -> Prop) (l : list A) :
  Forall P l -> Forall P (removelast l).
Proof.
  induction 1 as [|x l Hx Hl IH]; simpl; [constructor|].
  destruct l; [constructor | now constructor].
Qed.

Lemma normStep_invariant (P : string -> Prop) (res : list string) (seg : string) :
  Forall P res -> P seg -> Forall P (Path.normStep false res seg).
Proof.
  intros Hres Hseg. unfold Path.normStep.
  destruct (String.eqb seg "" || String.eqb seg "."); [assumption|].
  destruct (String.eqb seg "..").
  - destruct (last res) as [l|]; [|constructor].
    destruct (String.eqb l ".."); [assumption | now apply Forall_removelast].
  - apply Forall_app. split; [assumption | now repeat constructor].
Qed.

Lemma normStep_keeps_normal (res : list string) (seg : string) :
  Forall (fun s => Path.isNormalSegment s = true) res ->
  Forall (fun s => Path.isNormalSegment s = true) (Path.normStep false res seg).
Proof.
  intros Hres. unfold Path.normStep.
  destruct (String.eqb seg "") eqn:E1; [assumption|].
  destruct (String.eqb seg ".") eqn:E2; [assumption|]. cbn [orb].
  destruct (String.eqb seg "..") eqn:E3.
  - destruct (last res) as [l|]; [|constructor].
    destruct (String.eqb l ".."); [assumption | now apply Forall_removelast].
  - apply Forall_app. split; [assumption|]. repeat constructor.
    unfold Path.isNormalSegment. now rewrite E1, E2, E3.
Qed.

Lemma fold_normStep_invariant (P : string -> Prop) (segs res : list string) :
  (forall res seg, Forall P res -> seg ∈ segs -> Forall P (Path.normStep false res seg)) ->
  Forall P res -> Forall P (fold_left (Path.normStep false) segs res).
Proof.
  revert res. induction segs as [|seg segs IH]; intros res Hstep Hres; [exact Hres|].
  simpl. apply IH.
  - intros res' seg' H1 H2. apply Hstep; [assumption | now right].
  - apply Hstep; [assumption | now left].
Qed.

Lemma pathKey_normal (p : string) :
  Forall (fun s => Path.isNormalSegment s = true) (pathKey p).
Proof.
  apply fold_normStep_invariant; [|constructor].
  intros res seg H _. now apply normStep_keeps_normal.
Qed.

Lemma pathKey_slashFree (p : string) : Forall slashFree (pathKey p).
Proof.
  apply fold_normStep_invariant; [|constructor].
  intros res seg H Hin. apply normStep_invariant; [assumption|].
  now apply (split_slashFree "/" p).
Qed.

Lemma fold_normStep_normal (segs res : list string) :
  Forall (fun s => Path.isNormalSegment s = true) segs ->
  fold_left (Path.normStep false) segs res = res ++ segs.
Proof.
  intros H. revert res. induction H as [|seg segs Hseg Hsegs IH]; intros res; simpl.
  - now rewrite app_nil_r.
  - rewrite normStep_normal, IH, <- app_assoc by assumption. reflexivity.
Qed.

Lemma fold_normStep_skip (segs res : list string) :
  fold_left (Path.normStep false) (EmptyString :: segs) res
  = fold_left (Path.normStep false) segs res.
Proof. reflexivity. Qed.

Lemma isAbsolute_cons (p : string) :
  Path.isAbsolute p = true -> exists p', p = String "/" p'.
Proof.
  destruct p as [|c p]; [discriminate|]. unfold Path.isAbsolute. simpl.
  rewrite andb_true_r. intros H. apply Ascii.eqb_eq in H as ->. eauto.
Qed.

(** Normalizing an absolute path gives an absolute path with the same key. *)
Lemma normalize_absolute (p : string) :
  Path.isAbsolute p = true ->
  Path.isAbsolute (Path.normalize p) = true /\ pathKey (Path.normalize p) = pathKey p.
Proof.
  intros Habs. destruct (isAbsolute_cons p Habs) as [p' ->].
  unfold Path.normalize. rewrite Habs. cbn [negb].
  set (p := String "/" p') in *. fold (pathKey p).
  pose proof (pathKey_normal p) as Hnorm. pose proof (pathKey_slashFree p) as Hfree.
  destruct (pathKey p) as [|seg key] eqn:Ekey.
  - simpl. split; reflexivity.
  - assert (Hsplit : split "/" (JS.join "/" (seg :: key)) = seg :: key)
      by (apply split_join; [discriminate | exact Hfree]).
    assert (Hbody : exists c body, JS.join "/" (seg :: key) = String c body).
    { destruct seg as [|c seg]; [now inversion Hnorm|].
      destruct key; simpl; eauto. }
    destruct Hbody as (c & body & Ebody). rewrite Ebody.
    split; [now destruct (endsWith p "/")|].
    rewrite <- Ebody. unfold pathKey, Path.normSegs.
    destruct (endsWith p "/").
    + change ("/" +:+ JS.join "/" (seg :: key) +:+ "/")
        with (String "/" (JS.join "/" (seg :: key) +:+ String "/" "")).
      rewrite split_sep_cons, split_app_sep, Hsplit, fold_normStep_skip.
      rewrite fold_left_app, (fold_normStep_normal (seg :: key)) by exact Hnorm.
      reflexivity.
    + change ("/" +:+ JS.join "/" (seg :: key))
        with (String "/" (JS.join "/" (seg :: key))).
      rewrite split_sep_cons, Hsplit, fold_normStep_skip.
      now rewrite fold_normStep_normal by exact Hnorm.
Qed.

(** The key of [path.join(a, b)] for an absolute [a]: the segments of [b]
    are resolved from the key of [a]. *)
Lemma pathKey_join (a b : string) :
  Path.isAbsolute a = true ->
  Path.isAbsolute (Path.join [a; b]) = true
  /\ pathKey (Path.join [a; b]) = fold_left (Path.normStep false) (split "/" b) (pathKey a).
Proof.
  intros Habs. destruct (isAbsolute_cons a Habs) as [a' ->].
  unfold Path.join. rewrite filter_cons_True by discriminate.
  destruct b as [|c b].
  - rewrite filter_cons_False by (intros H; now apply H). rewrite filter_nil.
    cbn [JS.join]. destruct (normalize_absolute _ Habs) as [H1 H2].
    split; [exact H1|]. now rewrite H2.
  - rewrite filter_cons_True by discriminate. rewrite filter_nil.
    change (JS.join "/" [String "/" a'; String c b])
      with (String "/" a' +:+ String "/" (String c b)).
    assert (Habs' : Path.isAbsolute (String "/" a' +:+ String "/" (String c b)) = true)
      by reflexivity.
    destruct (normalize_absolute _ Habs') as [H1 H2].
    split; [exact H1|]. rewrite H2. unfold pathKey, Path.normSegs.
    now rewrite split_app_sep, fold_left_app.
Qed.

Lemma pathKey_join_segment (a seg : string) :
  Path.isAbsolute a = true -> slashFree seg ->
  pathKey (Path.join [a; seg]) = Path.normStep false (pathKey a) seg.
Proof.
  intros Habs Hseg. destruct (pathKey_join a seg Habs) as [_ ->].
  now rewrite (split_nosep _ _ Hseg).
Qed.

Lemma isPrefix_app (k r : list string) : isPrefix k (k ++ r) = true.
Proof. induction k as [|x k IH]; simpl; [reflexivity|]. now rewrite String.eqb_refl. Qed.

Lemma isPrefix_spec (k k' : list string) : isPrefix k k' = true <-> exists r, k' = k ++ r.
Proof.
  split.
  - revert k'. induction k as [|x k IH]; intros k' H; [now exists k'|].
    destruct k' as [|y k']; [discriminate|]. simpl in H.
    apply andb_true_iff in H as [Hx Hk]. apply String.eqb_eq in Hx as ->.
    destruct (IH _ Hk) as [r ->]. now exists r.
  - intros [r ->]. apply isPrefix_app.
Qed.

End PathFacts.

(** ** C9: deleting a stream *)

Section Catalog.

Import HLSService.

Lemma wellFormedStore_parent (m : gmap (list string) node) (k : list string)
    (x : string) (n : node) :
  wellFormedStore m = true -> m !! (k ++ [x]) = Some n ->
  exists s t, m !! k = Some (Dir s t).
Proof.
  intros Hwf Hk. unfold wellFormedStore in Hwf.
  rewrite forallb_forall in Hwf.
  specialize (Hwf (k ++ [x], n)). cbn [fst] in Hwf.
  assert (Hin : In (k ++ [x], n) (map_to_list m)).
  { apply list_elem_of_In, elem_of_map_to_list, Hk. }
  specialize (Hwf Hin). unfold Fs.parentIsDir in Hwf.
  rewrite removelast_last in Hwf.
  destruct (k ++ [x]) eqn:E; [now destruct k|].
  destruct (m !! k) as [[content tm|sz tm]|]; try discriminate. eauto.
Qed.

Lemma removeTree_lookup (k k' : list string) (m : gmap (list string) node) :
  removeTree k m !! k' = if isPrefix k k' then None else m !! k'.
Proof.
  unfold removeTree. rewrite map_lookup_filter.
  destruct (m !! k') as [n|]; simpl; [|now destruct (isPrefix k k')].
  destruct (isPrefix k k') eqn:E.
  - rewrite option_guard_False; [reflexivity | simpl; congruence].
  - rewrite option_guard_True; [reflexivity | simpl; congruence].
Qed.

(** The key of a stream's master playlist lies directly under the key of
    the stream's directory. *)
Lemma master_key (this : HLSService.t) (stream : string) :
  Path.isAbsolute (hlsDir this) = true ->
  pathKey (Path.join [Path.join [hlsDir this; stream]; "master.m3u8"])
  = pathKey (Path.join [hlsDir this; stream]) ++ ["master.m3u8"].
Proof.
  intros Habs. destruct (pathKey_join (hlsDir this) stream Habs) as [Habs' _].
  now rewrite (pathKey_join_segment _ "master.m3u8" Habs').
Qed.

Lemma hlsDir_absolute (dirname : string) :
  Path.isAbsolute dirname = true -> Path.isAbsolute (hlsDir (HLSService.new dirname)) = true.
Proof. intros H. apply (pathKey_join dirname "../../hls" H). Qed.

End Catalog.

Section DeleteStream.

Import HLSService.

Lemma nodeAt_lookup (m : gmap (list string) node) (p : string) (n : node) :
  nodeAt m p = Ok n -> m !! pathKey p = Some n.
Proof.
  unfold nodeAt. destruct (m !! pathKey p) as [[c t|s t]|]; try discriminate.
  - destruct (endsWith p "/"); [discriminate|]. now intros [= <-].
  - now intros [= <-].
Qed.

Lemma nodeAt_dir (m : gmap (list string) node) (p : string) (s : Z) (t : Date) :
  m !! pathKey p = Some (Dir s t) -> nodeAt m p = Ok (Dir s t).
Proof. intros H. unfold nodeAt. now rewrite H. Qed.

Lemma nodeAt_missing (m : gmap (list string) node) (p : string) :
  m !! pathKey p = None -> nodeAt m p = Throw (errno "ENOENT" p).
Proof. intros H. unfold nodeAt. now rewrite H. Qed.

End DeleteStream.

(** C9.  Deleting a stream whose master playlist does not exist answers
    404 and leaves the store unchanged.  Deleting a stream whose master
    playlist exists removes every entry under the stream's directory (and
    nothing else), after which [streamExists] is false for that name. *)
Theorem C9_delete_stream (dirname stream : string) (w : World) :
  Path.isAbsolute dirname = true ->
  wellFormedStore (files w) = true ->
  let this := HLSService.new dirname in
  let tree := pathKey (Path.join [HLSService.hlsDir this; stream]) in
  let after := (HlsRoutes.deleteRoute this stream w).2 in
  ((HLSService.streamExists this stream w).1 = Ok false ->
     status (res after) = 404 /\ files after = files w)
  /\ ((HLSService.streamExists this stream w).1 = Ok true ->
      (forall k, isPrefix tree k = true -> files after !! k = None)
      /\ (forall k, isPrefix tree k = false -> files after !! k = files w !! k)
      /\ (HLSService.streamExists this stream after).1 = Ok false
      /\ payload (res after)
         = Json (JObj [("message", JStr ("Stream '" +:+ stream
                                         +:+ "' deleted successfully"))])).
Proof.
  intros Habs Hwf this tree after.
  pose proof (hlsDir_absolute dirname Habs) as Hdir. fold this in Hdir.
  pose proof (master_key this stream Hdir) as Hmaster. fold tree in Hmaster.
  subst after.
  unfold HlsRoutes.deleteRoute, HLSService.streamExists, HLSService.deleteStream,
    HlsRoutes.streamNotFound.
  mred.
  destruct (nodeAt (files w)
              (Path.join [Path.join [HLSService.hlsDir this; stream]; "master.m3u8"]))
    as [n|e] eqn:Enode; cbn [negb]; mred.
  - split; [discriminate|]. intros _.
    apply nodeAt_lookup in Enode. rewrite Hmaster in Enode.
    destruct (wellFormedStore_parent _ _ _ _ Hwf Enode) as (s & t & Etree).
    rewrite (nodeAt_dir _ _ _ _ Etree). mred. fold tree.
    repeat split.
    + intros k Hk. now rewrite removeTree_lookup, Hk.
    + intros k Hk. now rewrite removeTree_lookup, Hk.
    + rewrite nodeAt_missing; [reflexivity|].
      now rewrite Hmaster, removeTree_lookup, isPrefix_app.
  - split; [|discriminate]. intros _. split; reflexivity.
Qed.

Lemma C9_witness :
  (forall k, isPrefix ["app"; "hls"; "s"] k = true ->
             files (HlsRoutes.deleteRoute sampleHls "s" sampleWorld).2 !! k = None)
  /\ (HLSService.streamExists sampleHls "s"
        (HlsRoutes.deleteRoute sampleHls "s" sampleWorld).2).1 = Ok false
  /\ status (res (HlsRoutes.deleteRoute sampleHls "missing" sampleWorld).2) = 404
  /\ files (HlsRoutes.deleteRoute sampleHls "missing" sampleWorld).2 = files sampleWorld.
Proof.
  destruct (C9_delete_stream "/app/src/services" "s" sampleWorld
              ltac:(reflexivity) ltac:(vm_compute; reflexivity)) as [_ Hpresent].
  destruct (Hpresent ltac:(vm_compute; reflexivity)) as (Hgone & _ & Hexists & _).
  destruct (C9_delete_stream "/app/src/services" "missing" sampleWorld
              ltac:(reflexivity) ltac:(vm_compute; reflexivity)) as [Habsent _].
  destruct (Habsent ltac:(vm_compute; reflexivity)) as [Hstatus Hfiles].
  repeat split; assumption.
Defined.

(** ** C7: names with directory navigation *)

(** Case analysis on the innermost scrutinee of the goal. *)
Ltac hcase :=
  match goal with
  | |- context [match ?x with _ => _ end] =>
      lazymatch x with
      | context [match _ with _ => _ end] => fail
      | _ => destruct x eqn:?
      end
  end.

Section LocalRoute.

Lemma lastNonEmpty_cases (segs : list string) (acc : string) :
  let f := fun (acc seg : string) => if String.eqb seg "" then acc else seg in
  fold_left f segs acc = acc \/ fold_left f segs acc ∈ segs.
Proof.
  revert acc. induction segs as [|seg segs IH]; intros acc; simpl; [now left|].
  destruct (IH (if String.eqb seg "" then acc else seg)) as [H|H].
  - rewrite H. destruct (String.eqb seg ""); [now left | right; now left].
  - right. now right.
Qed.

Lemma basename_slashFree (p : string) : slashFree (Path.basename p).
Proof.
  unfold Path.basename, Path.lastNonEmpty.
  destruct (lastNonEmpty_cases (split "/" p) "") as [H|H].
  - cbv zeta in H. now rewrite H.
  - now apply (split_slashFree "/" p).
Qed.

Lemma basename_idempotent (p : string) :
  Path.basename (Path.basename p) = Path.basename p.
Proof.
  pose proof (basename_slashFree p) as Hfree.
  set (b := Path.basename p) in *. unfold Path.basename, Path.lastNonEmpty.
  rewrite (split_nosep _ _ Hfree). cbn [fold_left].
  now destruct (String.eqb_spec b "") as [->|_].
Qed.

(** [streamVideo] reads the store only at the path it is given, and does
    not change it. *)
Lemma streamVideo_accesses (p : string) (req : Request) (w : World) :
  let after := (VideoStreamService.streamVideo p req w).2 in
  files after = files w
  /\ exists accesses, log after = log w ++ accesses
                      /\ Forall (fun a : op * list string => a.2 = pathKey p) accesses.
Proof.
  unfold VideoStreamService.streamVideo. mred.
  repeat (hcase; mred); (split; [reflexivity|]); rewrite <- ?app_assoc;
    eexists; (split; [reflexivity|]); repeat constructor.
Qed.

Lemma videosDir_absolute (dirname : string) :
  Path.isAbsolute dirname = true -> Path.isAbsolute (VideoRoutes.videosDir dirname) = true.
Proof. intros H. apply (pathKey_join dirname "../../videos" H). Qed.

End LocalRoute.

(** C7, as stated, fails: a name with directory navigation is not failed
    before any I/O; the route looks up its last component under the videos
    directory and serves that file. *)
Lemma C7_traversal_name_is_served :
  let run := VideoRoutes.getLocal "/app/src/routes" "../../etc/a.mp4"
               {| range := None |} sampleWorld in
  status (responseOf run) = 200
  /\ payload (responseOf run) = Bytes sampleVideo
  /\ log run.2 = [ (OpExists, ["app"; "videos"; "a.mp4"]);
                   (OpStat, ["app"; "videos"; "a.mp4"]);
                   (OpOpen, ["app"; "videos"; "a.mp4"]) ].
Proof. repeat split; vm_compute; reflexivity. Qed.

(** C7, amended.  The local video route does not reject a name for the
    navigation it contains: it keeps the last component of the name
    ([path.basename]), which has no separator, and handles the request
    exactly as a request for that component.  For every name whose last
    component is an ordinary segment, every file-system access of the request
    is to that direct child of the videos directory, and the store is not
    changed. *)
Theorem C7_local_route_confined (dirname filename : string) (req : Request) (w : World) :
  Path.isAbsolute dirname = true ->
  Path.isNormalSegment (Path.basename filename) = true ->
  let base := pathKey (VideoRoutes.videosDir dirname) in
  let after := (VideoRoutes.getLocal dirname filename req w).2 in
  slashFree (Path.basename filename)
  /\ VideoRoutes.getLocal dirname filename req w
     = VideoRoutes.getLocal dirname (Path.basename filename) req w
  /\ files after = files w
  /\ exists accesses,
       log after = log w ++ accesses
       /\ Forall (fun a : op * list string => a.2 = base ++ [Path.basename filename])
                 accesses.
Proof.
  intros Habs Hseg base after.
  pose proof (basename_slashFree filename) as Hfree.
  split; [exact Hfree|].
  split; [unfold VideoRoutes.getLocal; now rewrite basename_idempotent|].
  assert (Hkey : pathKey (Path.join [VideoRoutes.videosDir dirname; Path.basename filename])
                 = base ++ [Path.basename filename]).
  { rewrite pathKey_join_segment by (auto using videosDir_absolute).
    now apply normStep_normal. }
  subst after. unfold VideoRoutes.getLocal. mred.
  set (filePath := Path.join [VideoRoutes.videosDir dirname; Path.basename filename]) in *.
  destruct (VideoStreamService.isValidVideoFile filePath); cbn [negb]; mred.
  - destruct (nodeAt (files w) filePath) as [n|e]; cbn [negb]; mred.
    + pose proof (streamVideo_accesses filePath req (logAccess OpExists (pathKey filePath) w))
        as (Hfiles & accesses & Hlog & Hall).
      destruct (VideoStreamService.streamVideo filePath req
                  (logAccess OpExists (pathKey filePath) w)) as [[[]|e] w'];
        cbn [snd files log logAccess] in *; mred.
      * split; [exact Hfiles|]. exists ((OpExists, pathKey filePath) :: accesses).
        rewrite Hlog, <- app_assoc. split; [reflexivity|].
        constructor; [exact Hkey|]. now rewrite <- Hkey.
      * split; [exact Hfiles|]. exists ((OpExists, pathKey filePath) :: accesses).
        rewrite Hlog, <- app_assoc. split; [reflexivity|].
        constructor; [exact Hkey|]. now rewrite <- Hkey.
    + split; [reflexivity|]. exists [(OpExists, pathKey filePath)].
      split; [reflexivity|]. constructor; [exact Hkey | constructor].
  - split; [reflexivity|]. exists []. now rewrite app_nil_r.
Qed.

Lemma C7_witness :
  exists accesses,
    log (VideoRoutes.getLocal "/app/src/routes" "../../etc/a.mp4"
           {| range := None |} sampleWorld).2 = accesses
    /\ Forall (fun a : op * list string => a.2 = ["app"; "videos"; "a.mp4"]) accesses.
Proof.
  destruct (C7_local_route_confined "/app/src/routes" "../../etc/a.mp4"
              {| range := None |} sampleWorld ltac:(reflexivity) ltac:(reflexivity))
    as (_ & _ & _ & accesses & Hlog & Hall).
  exists accesses. split; [exact Hlog | exact Hall].
Defined.

(** The HLS routes pass their parameters to [path.join] as they are: with
    the stream [s] present, the quality ".." and the segment "../secret.ts"
    make the segment route read and serve [/app/secret.ts], outside the HLS
    directory [/app/hls]. *)
Lemma hls_segment_route_escapes :
  let run := HlsRoutes.getSegmentRoute sampleHls "s" ".." "../secret.ts" sampleWorld in
  HLSService.hlsDir sampleHls = "/app/hls"
  /\ log run.2 = [ (OpExists, ["app"; "hls"; "s"; "master.m3u8"]);
                   (OpRead, ["app"; "secret.ts"]) ]
  /\ status (responseOf run) = 200
  /\ payload (responseOf run) = Bytes "TOPSECRET".
Proof. repeat split; vm_compute; reflexivity. Qed.

(** ** C5 and C8: the conversion job and its callers *)

Section Conversion.

Import HLSService.





















Lemma forEach_res {A} (f : A -> M unit) (l : list A) (w : World) :
  (forall x w', res (f x w').2 = res w') -> res (forEach l f w).2 = res w.
Proof.
  intros Hf. revert w. induction l as [|x l IH]; intros w; [reflexivity|].
  cbn [forEach]. unfold bind. specialize (Hf x w).
  destruct (f x w) as [[[]|e] w']; cbn [snd] in *; [|exact Hf].
  now rewrite IH.
Qed.

(** The job that [convertToHLS] sets up. *)
Lemma convertToHLS_initial (this : HLSService.t) (inputPath outputName : string)
    (options : Options.t) (w w1 : World) (job0 : Job.t) :
  convertToHLS this inputPath outputName options w = (Ok job0, w1) ->
  Job.completedQualities job0 = 0
  /\ Job.totalQualities job0 = Z.of_nat (length (Job.qualities job0))
  /\ res w1 = res w.
Proof.
  unfold convertToHLS, executor. mred.
  repeat (hcase; mred); try (intros [= <- <-]; cbn; repeat split; reflexivity);
  match goal with
  | |- context [forEach ?qs ?f ?w0] =>
      assert (Hres : res (forEach qs f w0).2 = res w0);
      [ apply forEach_res; intros q w'; mred; hcase; reflexivity
      | destruct (forEach qs f w0) as [[[]|e] w'] ]
  end; cbn [snd setFiles logAccess res] in Hres;
    intros [= <- <-]; cbn; repeat split; reflexivity || exact Hres.
Qed.

(** The 'end' handler replaces the content of the media playlist by its
    finalization. *)
Lemma onEnd_finalizes (job : Job.t) (quality : Quality) (w : World)
    (content : string) (t : Date) :
  let qualityPlaylist :=
    Path.join [Path.join [Job.outputDir job; name quality]; "playlist.m3u8"] in
  files w !! pathKey qualityPlaylist = Some (File content t) ->
  endsWith qualityPlaylist "/" = false ->
  exists t', files (onEnd job quality w).2 !! pathKey qualityPlaylist
             = Some (File (finalizeMedia content) t').
Proof.
  intros p Hfile Hslash. unfold onEnd, finalizeMedia. fold p. mred.
  rewrite (nodeAt_file _ _ _ _ Hfile Hslash). mred.
  destruct (negb (includes content "#EXT-X-ENDLIST")); mred.
  - rewrite Hfile, Hslash. mred. rewrite lookup_insert_eq. eauto.
  - eauto.
Qed.

End Conversion.



Section Callers.

Import HLSService.


End Callers.




(** * Further properties of the services and routes *)

(** ** The range resolver on every header *)

Section RangeBounds.

Lemma startsWith_inv (s p : string) :
  startsWith s p = true -> exists rest, s = p +:+ rest.
Proof.
  revert s. induction p as [|x p IH]; intros s H; [now exists s|].
  destruct s as [|c s]; [discriminate|]. simpl in H.
  apply andb_true_iff in H as [Hc Hs]. apply Ascii.eqb_eq in Hc as ->.
  destruct (IH _ Hs) as [rest ->]. now exists rest.
Qed.

Lemma hasChar_trimStart (c : ascii) (s : string) :
  hasChar c s = false -> hasChar c (trimStart s) = false.
Proof.
  induction s as [|d s IH]; [reflexivity|]. intros H. cbn [trimStart].
  destruct (isWhiteSpace d); [|exact H].
  apply IH. cbn [hasChar] in H. now apply orb_false_iff in H.
Qed.

Lemma stripSign_no_dash (s : string) :
  hasChar "-" s = false -> (stripSign s).1 = 1.
Proof.
  destruct s as [|c s]; [reflexivity|].
  destruct c as [[] [] [] [] [] [] [] []]; try reflexivity. discriminate.
Qed.

Lemma radixDigit_nonneg (c : ascii) (d : Z) : radixDigit 10 c = Some d -> 0 <= d.
Proof.
  unfold radixDigit, digitValue.
  destruct ((48 <=? JS.code c) && (JS.code c <=? 57)) eqn:E1.
  - apply andb_true_iff in E1 as [H1 _]. apply Z.leb_le in H1.
    destruct (JS.code c - 48 <? 10); [|discriminate]. intros [= <-]. lia.
  - destruct ((97 <=? JS.code c) && (JS.code c <=? 122)) eqn:E2.
    + apply andb_true_iff in E2 as [H1 _]. apply Z.leb_le in H1.
      destruct (JS.code c - 87 <? 10); [|discriminate]. intros [= <-]. lia.
    + destruct ((65 <=? JS.code c) && (JS.code c <=? 90)) eqn:E3; [|discriminate].
      apply andb_true_iff in E3 as [H1 _]. apply Z.leb_le in H1.
      destruct (JS.code c - 55 <? 10); [|discriminate]. intros [= <-]. lia.
Qed.

Lemma accDigits_nonneg (s : string) (acc : Z) : 0 <= acc -> 0 <= accDigits 10 acc s.
Proof.
  revert acc. induction s as [|c s IH]; intros acc Hacc; [exact Hacc|].
  cbn [accDigits]. destruct (radixDigit 10 c) as [d|] eqn:E; [|exact Hacc].
  apply IH. pose proof (radixDigit_nonneg c d E). lia.
Qed.

(** A field without "-" never parses to a negative number. *)
Lemma parseInt_nonneg (f : string) (z : Z) :
  hasChar "-" f = false -> parseInt f (Some 10) = Num z -> 0 <= z.
Proof.
  intros Hf. pose proof (stripSign_no_dash _ (hasChar_trimStart _ _ Hf)) as Hsign.
  unfold parseInt. destruct (stripSign (trimStart f)) as [sign body]. cbn [fst] in Hsign.
  subst sign.
  change (if 10 =? 0 then _ else _) with (mul (Num 1) (parseDigits 10 body)).
  unfold parseDigits. destruct body as [|c body]; [discriminate|].
  destruct (radixDigit 10 c) as [d|] eqn:E; [|discriminate].
  cbn [mul]. intros [= <-].
  pose proof (accDigits_nonneg (String c body) 0 ltac:(lia)) as Hacc.
  cbn [accDigits] in Hacc. lia.
Qed.

(** Whatever the header, a resolved range lies inside the file. *)
Lemma parseRange_bounds (range : option string) (fileSize : Z) (r : RangeData) :
  VideoStreamService.parseRange range fileSize = Some r ->
  exists s e, r = {| start := Num s; end_ := Num e; chunkSize := Num (e - s + 1) |}
              /\ 0 <= s /\ s <= e /\ e < fileSize.
Proof.
  destruct range as [h|]; [|discriminate].
  destruct (startsWith h "bytes=") eqn:Hpre.
  - destruct (startsWith_inv _ _ Hpre) as [rest ->]. rewrite parseRange_bytes.
    destruct (split "-" rest) as [|first others] eqn:Esplit;
      [now destruct (split_nonempty "-" rest)|].
    assert (Hfirst : hasChar "-" first = false).
    { apply (split_slashFree "-" rest). rewrite Esplit. now left. }
    cbn [lookup list_lookup default from_option id]. cbv zeta.
    destruct (parseInt first (Some 10)) as [|s] eqn:Es; [discriminate|].
    pose proof (parseInt_nonneg first s Hfirst Es) as Hs.
    cbn [isNaN orb].
    match goal with
    | |- context [isNaN ?x] => destruct x as [|e]
    end; [discriminate|].
    cbn [isNaN orb geq gt add sub].
    destruct (Z.leb_spec fileSize s); [discriminate|].
    destruct (Z.leb_spec fileSize e); [discriminate|].
    destruct (Z.ltb_spec e s); [discriminate|].
    cbn [orb]. intros [= <-]. exists s, e. repeat split; lia.
  - unfold VideoStreamService.parseRange. rewrite Hpre. cbn [negb].
    now rewrite orb_true_r.
Qed.

End RangeBounds.

Section WholeFile.

Lemma substring_to_end (n : nat) (s : string) :
  String.substring n (String.length s - n) s = drop n s.
Proof.
  revert n. induction s as [|c s IH]; intros n.
  - now destruct n.
  - destruct n as [|n]; cbn [drop String.length].
    + rewrite Nat.sub_0_r. cbn [String.substring]. f_equal.
      specialize (IH 0%nat). rewrite Nat.sub_0_r in IH. cbn [drop] in IH.
      destruct s; exact IH.
    + cbn [String.substring Nat.sub]. apply IH.
Qed.

Lemma length_drop (n : nat) (s : string) :
  String.length (drop n s) = (String.length s - n)%nat.
Proof.
  revert n. induction s as [|c s IH]; intros n; [now destruct n|].
  destruct n as [|n]; [reflexivity|]. cbn [drop String.length]. now rewrite IH.
Qed.

(** The answer of [streamVideo] to a request without Range header. *)
Lemma streamVideo_whole (w : World) (filePath content : string) (t : Date) (req : Request) :
  files w !! pathKey filePath = Some (File content t) ->
  endsWith filePath "/" = false ->
  truthy (Http.range req) = false ->
  responseOf (VideoStreamService.streamVideo filePath req w) =
  withPayload (Bytes content)
    (withHeaders
       [ ("Content-Length", decimal (Z.of_nat (String.length content)));
         ("Content-Type", VideoStreamService.getVideoMimeType filePath);
         ("Accept-Ranges", "bytes");
         ("Cache-Control", "public, max-age=3600");
         ("Last-Modified", toUTCString t);
         ("ETag", VideoStreamService.etagOf
                    {| size := Z.of_nat (String.length content); mtime := t;
                       isDirectory := false |}) ]
       (res w)).
Proof.
  intros Hf Hs Ht. unfold VideoStreamService.streamVideo. mred.
  rewrite (nodeAt_file _ _ _ _ Hf Hs). mred. rewrite Ht. mred.
  rewrite (nodeAt_file _ _ _ _ Hf Hs). mred. reflexivity.
Qed.

End WholeFile.





(** X3.  Without a Range header (or with an empty one) the whole file is
    sent: the status is left as it was (200 on a fresh response), the
    Content-Length is the size of the file, [Accept-Ranges: bytes] is
    announced, and the body is the content of the file. *)
Theorem whole_file_without_range (w : World) (filePath content : string) (t : Date)
    (req : Request) :
  files w !! pathKey filePath = Some (File content t) ->
  endsWith filePath "/" = false ->
  Http.range req = None \/ Http.range req = Some EmptyString ->
  let r := responseOf (VideoStreamService.streamVideo filePath req w) in
  status r = status (res w)
  /\ header "Content-Length" (headers r)
     = Some (decimal (Z.of_nat (String.length content)))
  /\ header "Accept-Ranges" (headers r) = Some "bytes"
  /\ header "Content-Range" (headers r) = header "Content-Range" (headers (res w))
  /\ payload r = Bytes content.
Proof.
  intros Hf Hslash Hrange r. subst r.
  rewrite (streamVideo_whole w filePath content t req Hf Hslash)
    by (destruct Hrange as [-> | ->]; reflexivity).
  unfold withPayload, withHeaders.
  cbn [status headers payload fold_left fst snd].
  rewrite !header_setHeader. cbn [String.eqb Ascii.eqb Bool.eqb].
  repeat split.
Qed.

Lemma whole_file_without_range_witness :
  status (responseOf (VideoStreamService.streamVideo "/app/videos/a.mp4"
                        {| range := None |} sampleWorld)) = 200
  /\ payload (responseOf (VideoStreamService.streamVideo "/app/videos/a.mp4"
                            {| range := None |} sampleWorld)) = Bytes sampleVideo.
Proof.
  destruct (whole_file_without_range sampleWorld "/app/videos/a.mp4" sampleVideo sampleDate
              {| range := None |} ltac:(vm_compute; reflexivity) ltac:(reflexivity)
              ltac:(left; reflexivity))
    as (Hstatus & _ & _ & _ & Hbody).
  split; [exact Hstatus | exact Hbody].
Defined.

(** X4.  On a regular file, whatever the request: either the range is
    rejected (416, nothing sent), or a body is sent whose length is exactly
    the announced Content-Length, and which is a part of the file. *)
Theorem body_length_is_content_length (w : World) (filePath content : string) (t : Date)
    (req : Request) :
  files w !! pathKey filePath = Some (File content t) ->
  endsWith filePath "/" = false ->
  let r := responseOf (VideoStreamService.streamVideo filePath req w) in
  (status r = 416 /\ payload r = payload (res w))
  \/ exists (data : string) (offset : nat),
       payload r = Bytes data
       /\ header "Content-Length" (headers r)
          = Some (decimal (Z.of_nat (String.length data)))
       /\ data = String.substring offset (String.length data) content
       /\ (offset + String.length data <= String.length content)%nat.
Proof.
  intros Hf Hslash r. subst r.
  destruct (truthy (Http.range req)) eqn:Htruthy.
  - destruct req as [[h|]]; [|discriminate]. cbn [Http.range] in Htruthy.
    destruct (VideoStreamService.parseRange (Some h) (Z.of_nat (String.length content)))
      as [rd|] eqn:Hparse.
    + right. destruct (parseRange_bounds _ _ _ Hparse) as (s & e & -> & Hs & Hse & He).
      rewrite (streamVideo_partial w filePath content h t s e (Num (e - s + 1)))
        by (auto; lia).
      unfold withPayload, withHeaders, withStatus.
      cbn [status headers payload fold_left fst snd].
      rewrite !header_setHeader. cbn [String.eqb Ascii.eqb Bool.eqb].
      assert (Hlen : String.length (String.substring (Z.to_nat s) (Z.to_nat (e - s + 1)) content)
                     = Z.to_nat (e - s + 1)) by (apply length_substring; lia).
      exists (String.substring (Z.to_nat s) (Z.to_nat (e - s + 1)) content), (Z.to_nat s).
      rewrite Hlen. split; [reflexivity|]. split; [|split; [reflexivity | lia]].
      unfold decimal. cbn [toString]. rewrite Z2Nat.id by lia. reflexivity.
    + left. rewrite (streamVideo_rejected w filePath content h t) by auto.
      split; reflexivity.
  - right. rewrite (streamVideo_whole w filePath content t req) by auto.
    unfold withPayload, withHeaders.
    cbn [status headers payload fold_left fst snd].
    rewrite !header_setHeader. cbn [String.eqb Ascii.eqb Bool.eqb].
    exists content, 0%nat. split; [reflexivity|]. split; [reflexivity|].
    split; [|lia].
    pose proof (substring_to_end 0 content) as H. rewrite Nat.sub_0_r in H.
    now rewrite H.
Qed.

Lemma body_length_is_content_length_witness :
  let r := responseOf (VideoStreamService.streamVideo "/app/videos/a.mp4"
                         {| range := Some "bytes=10-19" |} sampleWorld) in
  (status r = 416 /\ payload r = payload (res sampleWorld))
  \/ exists (data : string) (offset : nat),
       payload r = Bytes data
       /\ header "Content-Length" (headers r)
          = Some (decimal (Z.of_nat (String.length data)))
       /\ data = String.substring offset (String.length data) sampleVideo
       /\ (offset + String.length data <= String.length sampleVideo)%nat.
Proof.
  apply (body_length_is_content_length sampleWorld "/app/videos/a.mp4" sampleVideo sampleDate
           {| range := Some "bytes=10-19" |});
    [vm_compute; reflexivity | reflexivity].
Defined.



(** X6.  A path that names a directory never yields a body: the request is
    answered 416 when its Range header is not resolved against the size of
    the directory entry, and 500 otherwise (the read stream fails after the
    headers have been set). *)
Theorem directory_is_never_streamed (w : World) (filePath : string) (req : Request)
    (dsize : Z) (t : Date) :
  files w !! pathKey filePath = Some (Dir dsize t) ->
  headersSent (res w) = false ->
  let run := VideoStreamService.streamVideo filePath req w in
  (status (responseOf run) = 416 \/ status (responseOf run) = 500)
  /\ payload (responseOf run) = payload (res w)
  /\ files run.2 = files w.
Proof.
  intros Hdir Hsent run. subst run. unfold VideoStreamService.streamVideo. mred.
  rewrite (nodeAt_dir _ _ _ _ Hdir). mred.
  destruct (truthy (Http.range req)) eqn:Htruthy.
  - destruct (VideoStreamService.parseRange (Http.range req) dsize) as [rd|] eqn:Hparse.
    + destruct (parseRange_bounds _ _ _ Hparse) as (s & e & -> & Hs & Hse & He). mred.
      destruct (Z.ltb_spec s 0) as [|_]; [lia|].
      destruct (Z.ltb_spec e s) as [|_]; [lia|]. cbn [orb]. mred.
      rewrite (nodeAt_dir _ _ _ _ Hdir). mred.
      cbn [withHeaders withStatus headersSent]. rewrite Hsent. cbn [negb]. mred.
      split; [now right|]. split; reflexivity.
    + mred. split; [now left|]. split; reflexivity.
  - mred. rewrite (nodeAt_dir _ _ _ _ Hdir). mred.
    cbn [withHeaders headersSent]. rewrite Hsent. cbn [negb]. mred.
    split; [now right|]. split; reflexivity.
Qed.

Lemma directory_is_never_streamed_witness :
  status (responseOf (VideoStreamService.streamVideo "/app/videos"
                        {| range := None |} sampleWorld)) = 500.
Proof.
  destruct (directory_is_never_streamed sampleWorld "/app/videos" {| range := None |}
              4096 sampleDate ltac:(vm_compute; reflexivity) ltac:(reflexivity))
    as ([H|H] & _); [discriminate H | exact H].
Defined.

(** ** The shape of joined paths *)

Section JoinedPaths.

Lemma endsWith_app_tail (x l : string) (c : ascii) :
  l <> EmptyString ->
  endsWith (x +:+ l) (String c EmptyString) = endsWith l (String c EmptyString).
Proof.
  intros Hl. induction x as [|d x IH]; [reflexivity|].
  cbn [String.append endsWith]. rewrite IH.
  assert (Hne : String.eqb (String d (x +:+ l)) (String c EmptyString) = false).
  { apply String.eqb_neq. intros [= _ H]. destruct x; [now destruct Hl | discriminate]. }
  now rewrite Hne.
Qed.

Lemma endsWith_hasChar (l : string) (c : ascii) :
  hasChar c l = false -> endsWith l (String c EmptyString) = false.
Proof.
  induction l as [|d l IH]; [reflexivity|]. cbn [hasChar endsWith]. intros H.
  apply orb_false_iff in H as [Hd Hl]. rewrite (IH Hl), orb_false_r.
  apply String.eqb_neq. intros [= -> _]. now rewrite Ascii.eqb_refl in Hd.
Qed.

Lemma join_snoc (sep : string) (init : list string) (l : string) :
  exists x, JS.join sep (init ++ [l]) = x +:+ l.
Proof.
  induction init as [|p init IH]; [now exists EmptyString|].
  destruct IH as [x Hx]. cbn [app].
  destruct (init ++ [l]) as [|q rest] eqn:E; [now destruct init|].
  exists (p +:+ sep +:+ x).
  change (JS.join sep (p :: q :: rest)) with (p +:+ sep +:+ JS.join sep (q :: rest)).
  rewrite Hx. now rewrite !app_assoc_s.
Qed.

(** The text of a key: the segments after a leading separator.  It does
    not end with a separator. *)
Lemma rendered_key_no_trailing (key : list string) :
  key <> [] -> Forall slashFree key ->
  Forall (fun s => Path.isNormalSegment s = true) key ->
  endsWith ("/" +:+ JS.join "/" key) "/" = false
  /\ exists c body, JS.join "/" key = String c body.
Proof.
  intros Hne Hfree Hnorm.
  destruct (exists_last Hne) as (init & l & ->).
  apply Forall_app in Hfree as [_ Hl]. apply Forall_app in Hnorm as [_ Hn].
  inversion Hl as [|? ? Hlf _]; subst. inversion Hn as [|? ? Hln _]; subst.
  assert (Hlne : l <> EmptyString) by (intros ->; discriminate Hln).
  destruct (join_snoc "/" init l) as [x Hx]. rewrite Hx. split.
  - rewrite <- app_assoc_s, endsWith_app_tail by assumption.
    now apply endsWith_hasChar.
  - destruct x as [|c x]; [|now exists c, (x +:+ l)].
    destruct l as [|c l]; [now destruct Hlne | now exists c, l].
Qed.

(** Normalizing an absolute path that is not the root and is written
    without a trailing separator. *)
Lemma normalize_rendered (p : string) :
  Path.isAbsolute p = true -> pathKey p <> [] -> endsWith p "/" = false ->
  Path.normalize p = "/" +:+ JS.join "/" (pathKey p).
Proof.
  intros Habs Hkey Htrail. destruct (isAbsolute_cons p Habs) as [p' ->].
  unfold Path.normalize. rewrite Habs, Htrail. cbn [negb].
  fold (pathKey (String "/" p')).
  destruct (rendered_key_no_trailing _ Hkey (pathKey_slashFree _) (pathKey_normal _))
    as (_ & c & body & ->).
  reflexivity.
Qed.

Lemma join_rendered (a b : string) :
  Path.isAbsolute a = true -> b <> EmptyString -> endsWith b "/" = false ->
  pathKey (Path.join [a; b]) <> [] ->
  Path.join [a; b] = "/" +:+ JS.join "/" (pathKey (Path.join [a; b]))
  /\ endsWith (Path.join [a; b]) "/" = false.
Proof.
  intros Habs Hb Htrail Hkey.
  assert (Hjoin : Path.join [a; b] = Path.normalize (a +:+ "/" +:+ b)).
  { destruct (isAbsolute_cons a Habs) as [a' ->]. unfold Path.join.
    rewrite filter_cons_True by discriminate.
    rewrite filter_cons_True by exact Hb. rewrite filter_nil. reflexivity. }
  assert (Habs' : Path.isAbsolute (a +:+ "/" +:+ b) = true).
  { destruct (isAbsolute_cons a Habs) as [a' ->]. reflexivity. }
  assert (Htrail' : endsWith (a +:+ "/" +:+ b) "/" = false).
  { rewrite <- app_assoc_s, endsWith_app_tail by assumption. exact Htrail. }
  assert (Hkey' : pathKey (a +:+ "/" +:+ b) <> []).
  { rewrite Hjoin in Hkey. now rewrite (proj2 (normalize_absolute _ Habs')) in Hkey. }
  assert (Heq : Path.join [a; b] = "/" +:+ JS.join "/" (pathKey (Path.join [a; b]))).
  { rewrite Hjoin at 1. rewrite (normalize_rendered _ Habs' Hkey' Htrail').
    rewrite Hjoin. now rewrite (proj2 (normalize_absolute _ Habs')). }
  split; [exact Heq|]. rewrite Heq.
  apply rendered_key_no_trailing;
    [exact Hkey | apply pathKey_slashFree | apply pathKey_normal].
Qed.

Lemma normal_nonempty (seg : string) :
  Path.isNormalSegment seg = true -> seg <> EmptyString.
Proof. intros H ->. discriminate H. Qed.

(** [path.join] of an absolute directory and one ordinary segment. *)
Lemma join_segment (a seg : string) :
  Path.isAbsolute a = true -> Path.isNormalSegment seg = true -> slashFree seg ->
  pathKey (Path.join [a; seg]) = pathKey a ++ [seg]
  /\ Path.join [a; seg] = "/" +:+ JS.join "/" (pathKey a ++ [seg])
  /\ endsWith (Path.join [a; seg]) "/" = false.
Proof.
  intros Habs Hnorm Hfree.
  assert (Hkey : pathKey (Path.join [a; seg]) = pathKey a ++ [seg]).
  { rewrite pathKey_join_segment by assumption. now apply normStep_normal. }
  destruct (join_rendered a seg Habs (normal_nonempty _ Hnorm)
              (endsWith_hasChar _ _ Hfree)) as [Heq Htrail].
  { rewrite Hkey. now destruct (pathKey a). }
  rewrite Hkey in Heq. auto.
Qed.

Lemma lastNonEmpty_snoc (init : list string) (l : string) :
  l <> EmptyString -> Path.lastNonEmpty (init ++ [l]) = l.
Proof.
  intros Hl. unfold Path.lastNonEmpty. rewrite fold_left_app. cbn [fold_left].
  now destruct (String.eqb_spec l "").
Qed.

Lemma basename_join_segment (a seg : string) :
  Path.isAbsolute a = true -> Path.isNormalSegment seg = true -> slashFree seg ->
  Path.basename (Path.join [a; seg]) = seg.
Proof.
  intros Habs Hnorm Hfree.
  destruct (join_segment a seg Habs Hnorm Hfree) as (_ & -> & _).
  unfold Path.basename.
  change ("/" +:+ JS.join "/" (pathKey a ++ [seg]))
    with (String "/" (JS.join "/" (pathKey a ++ [seg]))).
  rewrite split_sep_cons, split_join.
  - rewrite app_comm_cons. now apply lastNonEmpty_snoc, normal_nonempty.
  - now destruct (pathKey a).
  - apply Forall_app. split; [apply pathKey_slashFree | now repeat constructor].
Qed.

(** The extension of a path is the extension of its last component. *)
Lemma extname_basename (p : string) : Path.extname (Path.basename p) = Path.extname p.
Proof. unfold Path.extname. now rewrite basename_idempotent. Qed.

Lemma extname_join_segment (a seg : string) :
  Path.isAbsolute a = true -> Path.isNormalSegment seg = true -> slashFree seg ->
  Path.extname (Path.join [a; seg]) = Path.extname seg.
Proof.
  intros Habs Hnorm Hfree.
  rewrite <- (extname_basename (Path.join [a; seg])).
  now rewrite basename_join_segment.
Qed.

End JoinedPaths.

(** ** The local video route *)

Section LocalRouteAnswers.

Lemma streamVideo_returns (p : string) (req : Request) (w : World) :
  (VideoStreamService.streamVideo p req w).1 = Ok tt.
Proof.
  unfold VideoStreamService.streamVideo. mred. repeat (hcase; mred); reflexivity.
Qed.

(** The route checks the extension of the requested name. *)
Lemma isValidVideoFile_joined (a filename : string) :
  Path.isAbsolute a = true ->
  Path.isNormalSegment (Path.basename filename) = true ->
  VideoStreamService.isValidVideoFile (Path.join [a; Path.basename filename])
  = VideoStreamService.isValidVideoFile filename
  /\ VideoStreamService.getVideoMimeType (Path.join [a; Path.basename filename])
     = VideoStreamService.getVideoMimeType filename.
Proof.
  intros Habs Hnorm.
  unfold VideoStreamService.isValidVideoFile, VideoStreamService.getVideoMimeType.
  rewrite extname_join_segment, extname_basename by auto using basename_slashFree.
  split; reflexivity.
Qed.

End LocalRouteAnswers.



(** X8.  For a name with a video extension the local route looks up the
    last component of the name under the videos directory.  When nothing is
    there it answers 404 and names that component in its message; when a
    file is there and the request has no Range header, it sends the whole
    file with the MIME type of the extension. *)
Theorem local_route_serves_last_component (dirname filename : string) (w : World) :
  Path.isAbsolute dirname = true ->
  Path.isNormalSegment (Path.basename filename) = true ->
  VideoStreamService.isValidVideoFile filename = true ->
  let key := pathKey (VideoRoutes.videosDir dirname) ++ [Path.basename filename] in
  let run := VideoRoutes.getLocal dirname filename {| range := None |} w in
  (files w !! key = None ->
     status (responseOf run) = 404
     /\ payload (responseOf run)
        = Json (JObj [ ("error", JStr "Video not found");
                       ("message", JStr ("Video file '" +:+ Path.basename filename
                                         +:+ "' not found")) ]))
  /\ (forall content t,
        files w !! key = Some (File content t) ->
        status (responseOf run) = status (res w)
        /\ payload (responseOf run) = Bytes content
        /\ header "Content-Length" (headers (responseOf run))
           = Some (decimal (Z.of_nat (String.length content)))
        /\ header "Content-Type" (headers (responseOf run))
           = Some (VideoStreamService.getVideoMimeType filename)).
Proof.
  intros Habs Hnorm Hvalid key run.
  pose proof (videosDir_absolute _ Habs) as Hdir.
  destruct (join_segment _ _ Hdir Hnorm (basename_slashFree filename))
    as (Hkey & _ & Htrail).
  destruct (isValidVideoFile_joined _ filename Hdir Hnorm) as [Hsame Hmime].
  subst run. unfold VideoRoutes.getLocal. mred. rewrite Hsame, Hvalid. cbn [negb]. mred.
  set (filePath := Path.join [VideoRoutes.videosDir dirname; Path.basename filename]) in *.
  fold key in Hkey. split.
  - intros Hnone. rewrite <- Hkey in Hnone.
    rewrite (nodeAt_missing _ _ Hnone). cbn [negb]. mred. split; reflexivity.
  - intros content t Hfile. rewrite <- Hkey in Hfile.
    rewrite (nodeAt_file _ _ _ _ Hfile Htrail). cbn [negb]. mred.
    set (w0 := logAccess OpExists (pathKey filePath) w).
    pose proof (streamVideo_returns filePath {| range := None |} w0) as Hok.
    pose proof (streamVideo_whole w0 filePath content t {| range := None |} Hfile Htrail
                  eq_refl) as Hres.
    unfold responseOf in Hres.
    destruct (VideoStreamService.streamVideo filePath {| range := None |} w0) as [o w'].
    cbn [fst snd] in Hok, Hres. subst o. mred. rewrite Hres, Hmime.
    unfold withPayload, withHeaders.
    cbn [status headers payload fold_left fst snd res w0 logAccess].
    rewrite !header_setHeader. cbn [String.eqb Ascii.eqb Bool.eqb].
    repeat split.
Qed.

Lemma local_route_serves_last_component_witness :
  payload (responseOf (VideoRoutes.getLocal "/app/src/routes" "x/y/a.mp4"
                         {| range := None |} sampleWorld)) = Bytes sampleVideo.
Proof.
  destruct (local_route_serves_last_component "/app/src/routes" "x/y/a.mp4" sampleWorld
              ltac:(reflexivity) ltac:(reflexivity) ltac:(reflexivity)) as [_ Hserve].
  destruct (Hserve sampleVideo sampleDate ltac:(vm_compute; reflexivity))
    as (_ & Hbody & _).
  exact Hbody.
Defined.

(** ** The HLS delivery routes *)

(** X9.  The segment route refuses every segment name that does not end
    with ".ts" with 400 "Invalid segment", before any file-system access,
    whether or not the stream exists. *)
Theorem segment_route_requires_ts (hlsService : HLSService.t)
    (stream quality segment : string) (w : World) :
  endsWith segment ".ts" = false ->
  let run := HlsRoutes.getSegmentRoute hlsService stream quality segment w in
  status (responseOf run) = 400
  /\ payload (responseOf run)
     = Json (JObj [ ("error", JStr "Invalid segment");
                    ("message", JStr "Only .ts segments are allowed") ])
  /\ log run.2 = log w
  /\ files run.2 = files w.
Proof.
  intros Hts run. subst run. unfold HlsRoutes.getSegmentRoute. mred.
  rewrite Hts. cbn [negb]. mred. repeat split.
Qed.

Lemma segment_route_requires_ts_witness :
  status (responseOf (HlsRoutes.getSegmentRoute sampleHls "s" "720p" "playlist.m3u8.bak"
                        sampleWorld)) = 400.
Proof.
  apply (segment_route_requires_ts sampleHls "s" "720p" "playlist.m3u8.bak" sampleWorld).
  reflexivity.
Defined.

(** X10.  For a stream without master playlist, the three delivery routes
    (master playlist, media playlist, segment) answer 404 "Stream not found";
    their only file-system access is the existence test of the master
    playlist, and the store is left as it was. *)
Theorem delivery_routes_unknown_stream (hlsService : HLSService.t)
    (stream quality segment : string) (w : World) :
  (HLSService.streamExists hlsService stream w).1 = Ok false ->
  endsWith segment ".ts" = true ->
  let master := Path.join [Path.join [HLSService.hlsDir hlsService; stream]; "master.m3u8"] in
  let notFound :=
    Json (JObj [ ("error", JStr "Stream not found");
                 ("message", JStr ("HLS stream '" +:+ stream +:+ "' not found")) ]) in
  forall run,
    run ∈ [ HlsRoutes.getMasterPlaylist hlsService stream w;
            HlsRoutes.getQualityPlaylist hlsService stream quality w;
            HlsRoutes.getSegmentRoute hlsService stream quality segment w ] ->
    status (responseOf run) = 404
    /\ payload (responseOf run) = notFound
    /\ log run.2 = log w ++ [(OpExists, pathKey master)]
    /\ files run.2 = files w.
Proof.
  intros Hexists Hts master notFound run Hrun.
  unfold HLSService.streamExists in Hexists. revert Hexists. mred. fold master.
  destruct (nodeAt (files w) master) as [n|e] eqn:Enode; [discriminate|]. intros _.
  repeat (apply elem_of_cons in Hrun as [-> | Hrun]);
    [| | | now apply elem_of_nil in Hrun];
    unfold HlsRoutes.getMasterPlaylist, HlsRoutes.getQualityPlaylist,
      HlsRoutes.getSegmentRoute, HLSService.streamExists, HlsRoutes.streamNotFound;
    mred; rewrite ?Hts; cbn [negb]; mred; fold master; rewrite Enode; cbn [negb]; mred;
    repeat split.
Qed.

Lemma delivery_routes_unknown_stream_witness :
  status (responseOf (HlsRoutes.getSegmentRoute sampleHls "t" "720p" "segment_000.ts"
                        sampleWorld)) = 404.
Proof.
  apply (delivery_routes_unknown_stream sampleHls "t" "720p" "segment_000.ts" sampleWorld
           ltac:(vm_compute; reflexivity) ltac:(reflexivity)).
  do 2 right. left.
Defined.





(** ** Setting up a conversion *)

Section Launch.

Import HLSService.

Lemma mkdirp_keeps (t : Date) (rest pre : list string) (m m' : gmap (list string) node)
    (k : list string) (n : node) :
  mkdirp t pre rest m = Some m' -> m !! k = Some n -> m' !! k = Some n.
Proof.
  revert pre m. induction rest as [|x rest IH]; intros pre m Hmk Hk; cbn [mkdirp] in Hmk.
  - destruct (m !! pre) as [[c tm|s tm]|] eqn:E; try discriminate;
      injection Hmk as <-; [exact Hk|].
    rewrite lookup_insert_ne; [exact Hk|]. intros ->. congruence.
  - destruct (m !! pre) as [[c tm|s tm]|] eqn:E; try discriminate.
    + now apply (IH _ _ Hmk).
    + apply (IH _ _ Hmk). rewrite lookup_insert_ne; [exact Hk|]. intros ->. congruence.
Qed.

Lemma mkdirp_creates (t : Date) (rest pre : list string) (m m' : gmap (list string) node) :
  mkdirp t pre rest m = Some m' -> exists s t', m' !! (pre ++ rest) = Some (Dir s t').
Proof.
  revert pre m. induction rest as [|x rest IH]; intros pre m Hmk; cbn [mkdirp] in Hmk.
  - rewrite app_nil_r.
    destruct (m !! pre) as [[c tm|s tm]|] eqn:E; try discriminate; injection Hmk as <-.
    + eauto.
    + rewrite lookup_insert_eq. eauto.
  - replace (pre ++ x :: rest) with ((pre ++ [x]) ++ rest) by now rewrite <- app_assoc.
    destruct (m !! pre) as [[c tm|s tm]|] eqn:E; try discriminate; now apply (IH _ _ Hmk).
Qed.

(** What a successful [mkdirSync] does to the store. *)
Lemma mkdirSync_spec (p : string) (w w' : World) :
  Fs.mkdirSync p w = (Ok tt, w') ->
  (forall k n, files w !! k = Some n -> files w' !! k = Some n)
  /\ (exists s t, files w' !! pathKey p = Some (Dir s t))
  /\ now w' = now w.
Proof.
  unfold Fs.mkdirSync. mred.
  destruct (mkdirp (now w) [] (pathKey p) (files w)) as [m'|] eqn:Emk; mred;
    [|discriminate].
  intros [= <-]. cbn [files now setFiles logAccess]. split; [|split; [|reflexivity]].
  - intros k n. now apply mkdirp_keeps with (1 := Emk).
  - apply (mkdirp_creates _ _ _ _ _ Emk).
Qed.

(** The directories of the renditions, created one after the other. *)
Lemma forEach_mkdir (dirOf : Quality -> string) (qs : list Quality) (w w' : World) :
  forEach qs (fun quality => Fs.mkdirSync (dirOf quality)) w = (Ok tt, w') ->
  (forall k n, files w !! k = Some n -> files w' !! k = Some n)
  /\ (forall q, q ∈ qs -> exists s t, files w' !! pathKey (dirOf q) = Some (Dir s t)).
Proof.
  revert w. induction qs as [|q qs IH]; intros w Hrun; cbn [forEach] in Hrun.
  - injection Hrun as <-. split; [auto|]. intros q Hq. now apply elem_of_nil in Hq.
  - unfold bind in Hrun.
    destruct (Fs.mkdirSync (dirOf q) w) as [[[]|e] w1] eqn:Estep; [|discriminate].
    destruct (mkdirSync_spec _ _ _ Estep) as (Hkeep & (s & t & Hdir) & _).
    destruct (IH _ Hrun) as [Hkeep' Hdirs]. split; [auto|].
    intros q' Hq'. apply elem_of_cons in Hq' as [->|Hq']; [|now apply Hdirs].
    exists s, t. now apply Hkeep'.
Qed.

(** The store after a launch that leaves the promise pending. *)
Lemma launch_spec (this : HLSService.t) (inputPath outputName : string)
    (options : Options.t) (w w1 : World) (job0 : Job.t) :
  convertToHLS this inputPath outputName options w = (Ok job0, w1) ->
  Job.promise job0 = Pending ->
  let outputDir := Path.join [hlsDir this; outputName] in
  let master := Path.join [outputDir; "master.m3u8"] in
  Job.qualities job0 = default defaultQualities (Options.qualities options)
  /\ Job.outputName job0 = outputName
  /\ Job.outputDir job0 = outputDir
  /\ Job.results job0 = []
  /\ nodeAt (files w1) master
     = Ok (File (createMasterPlaylist (Job.qualities job0) outputName) (now w))
  /\ (exists s t, files w1 !! pathKey outputDir = Some (Dir s t))
  /\ (forall q, q ∈ Job.qualities job0 ->
        exists s t, files w1 !! pathKey (Path.join [outputDir; name q]) = Some (Dir s t)).
Proof.
  intros Hconv Hpend outputDir master. revert Hconv.
  unfold convertToHLS, executor. fold outputDir. fold master.
  unfold tryCatch, bind at 1.
  destruct (Fs.mkdirSync outputDir w) as [[[]|e] wa] eqn:Emk;
    [|unfold ret; intros [= <- <-]; discriminate Hpend].
  destruct (mkdirSync_spec _ _ _ Emk) as (Hkeep & (s & t & Hdir) & Hnow).
  unfold bind at 1.
  destruct (Fs.writeFileSync master
              (createMasterPlaylist (default defaultQualities (Options.qualities options))
                 outputName) wa) as [[[]|e] wb] eqn:Ewrite;
    [|unfold ret; intros [= <- <-]; discriminate Hpend].
  assert (Hmaster : nodeAt (files wb) master
                    = Ok (File (createMasterPlaylist
                                  (default defaultQualities (Options.qualities options))
                                  outputName) (now w))
                    /\ forall k n, files wa !! k = Some n -> k <> pathKey master ->
                                   files wb !! k = Some n).
  { revert Ewrite. unfold Fs.writeFileSync. mred. rewrite Hnow.
    destruct (files wa !! pathKey master) as [[c tm|sz tm]|] eqn:E; mred; try discriminate;
      (destruct (Fs.parentIsDir (files wa) (pathKey master) && negb (endsWith master "/"))
         eqn:Econd; mred; [|discriminate]);
      apply andb_true_iff in Econd as [_ Htrail]; apply negb_true_iff in Htrail;
      intros [= <-]; cbn [files setFiles logAccess];
      (split; [apply nodeAt_file; [apply lookup_insert_eq | exact Htrail]
              | intros k n Hk Hne; now rewrite lookup_insert_ne]). }
  destruct Hmaster as [Hmaster Hkeepb].
  unfold bind at 1.
  match goal with
  | |- context [forEach ?qs ?f wb] =>
      destruct (forEach qs f wb) as [[[]|e] wc] eqn:Eeach;
        [|unfold ret; intros [= <- <-]; discriminate Hpend]
  end.
  destruct (forEach_mkdir (fun quality => Path.join [outputDir; name quality]) _ _ _ Eeach)
    as [Hkeepc Hdirs].
  unfold ret. intros [= <- <-]. cbn [Job.qualities Job.outputName Job.outputDir Job.results].
  repeat split; try reflexivity.
  - apply nodeAt_lookup in Hmaster as Hfile. apply Hkeepc in Hfile.
    unfold nodeAt in Hmaster |- *. rewrite Hfile.
    destruct (files wb !! pathKey master) as [[c tm|sz tm]|]; try discriminate.
    now destruct (endsWith master "/").
  - destruct (decide (pathKey outputDir = pathKey master)) as [E|Hne].
    + apply nodeAt_lookup in Hmaster. apply Hkeepc in Hmaster.
      specialize (Hkeepb _ _ Hdir).
      (* the stream directory and the master playlist cannot share a key *)
      exfalso. revert Emk Ewrite. unfold Fs.mkdirSync, Fs.writeFileSync. mred.
      destruct (mkdirp (now w) [] (pathKey outputDir) (files w)) as [m'|]; mred;
        [|discriminate].
      intros [= <-]. cbn [files setFiles logAccess] in *. rewrite <- E, Hdir. mred.
      discriminate.
    + exists s, t. apply Hkeepc, Hkeepb; assumption.
  - exact Hdirs.
Qed.

End Launch.

(** X13.  When [convertToHLS] has returned with its promise pending, the
    stream is already published: the master playlist written for the
    renditions of the job is in place (so that [streamExists] holds), every
    rendition has its directory, and no rendition is counted as completed. *)
Theorem launch_publishes_master_playlist (this : HLSService.t)
    (inputPath outputName : string) (options : HLSService.Options.t)
    (w w1 : World) (job0 : HLSService.Job.t) :
  HLSService.convertToHLS this inputPath outputName options w = (Ok job0, w1) ->
  HLSService.Job.promise job0 = HLSService.Pending ->
  let outputDir := Path.join [HLSService.hlsDir this; outputName] in
  nodeAt (files w1) (Path.join [outputDir; "master.m3u8"])
  = Ok (File (HLSService.createMasterPlaylist (HLSService.Job.qualities job0) outputName)
             (now w))
  /\ (HLSService.streamExists this outputName w1).1 = Ok true
  /\ (forall q, q ∈ HLSService.Job.qualities job0 ->
        exists s t,
          files w1 !! pathKey (Path.join [outputDir; HLSService.name q]) = Some (Dir s t))
  /\ HLSService.Job.completedQualities job0 = 0
  /\ HLSService.Job.results job0 = [].
Proof.
  intros Hconv Hpend outputDir.
  destruct (launch_spec _ _ _ _ _ _ _ Hconv Hpend) as (_ & _ & _ & Hres & Hmaster & _ & Hdirs).
  destruct (convertToHLS_initial _ _ _ _ _ _ _ Hconv) as (Hzero & _ & _).
  fold outputDir in Hmaster, Hdirs.
  split; [exact Hmaster|]. split; [|auto].
  unfold HLSService.streamExists. mred. fold outputDir. now rewrite Hmaster.
Qed.

Lemma launch_publishes_master_playlist_witness :
  (HLSService.streamExists sampleHls "video-17" sampleStart.2).1 = Ok true.
Proof.
  apply (launch_publishes_master_playlist sampleHls "/app/uploads/video-17.mp4" "video-17"
           HLSService.Options.empty sampleWorld sampleStart.2 (jobOf sampleStart)
           ltac:(vm_compute; reflexivity) ltac:(vm_compute; reflexivity)).
Defined.

Section MasterRoute.

Import HLSService.


End MasterRoute.



Section NoRenditions.

Import HLSService.

Lemma runEncoders_no_renditions (events : list Event) (job : Job.t) (w : World) :
  Job.qualities job = [] -> exists w', runEncoders job events w = (Ok job, w').
Proof.
  intros Hq. revert w. induction events as [|ev events IH]; intros w; [now exists w|].
  cbn [runEncoders]. unfold bind.
  assert (Hstep : exists w1, handle job ev w = (Ok job, w1)).
  { destruct ev as [p c|i|i e]; unfold handle; rewrite ?Hq, ?lookup_nil.
    - unfold encoderWrite. mred. repeat (hcase; mred); eauto.
    - unfold ret. eauto.
    - unfold ret. eauto. }
  destruct Hstep as [w1 ->]. apply IH.
Qed.

End NoRenditions.

(** X15.  With an empty list of renditions the promise of [convertToHLS] is
    never settled by the encoders: whatever is reported afterwards, the job
    is left exactly as [convertToHLS] returned it (pending, when the set-up
    succeeded). *)
Theorem empty_rendition_list_never_settles (this : HLSService.t)
    (inputPath outputName : string) (options : HLSService.Options.t)
    (events : list HLSService.Event) (w w1 : World) (job0 : HLSService.Job.t) :
  HLSService.Options.qualities options = Some [] ->
  HLSService.convertToHLS this inputPath outputName options w = (Ok job0, w1) ->
  exists w2, HLSService.runEncoders job0 events w1 = (Ok job0, w2).
Proof.
  intros Hq Hconv. apply runEncoders_no_renditions.
  revert Hconv. unfold HLSService.convertToHLS, HLSService.executor. rewrite Hq.
  cbn [default from_option id forEach]. mred.
  repeat (hcase; mred); intros [= <- <-]; reflexivity.
Qed.

Lemma empty_rendition_list_never_settles_witness :
  exists w2,
    HLSService.runEncoders (jobOf emptyStart)
      [HLSService.End 0; HLSService.Error 1 encoderFailure] emptyStart.2
    = (Ok (jobOf emptyStart), w2).
Proof.
  apply (empty_rendition_list_never_settles sampleHls "/app/uploads/video-17.mp4" "video-17"
           noRenditions [HLSService.End 0; HLSService.Error 1 encoderFailure]
           sampleWorld emptyStart.2 (jobOf emptyStart)
           ltac:(reflexivity) ltac:(vm_compute; reflexivity)).
Defined.

(** ** The end of an encoder *)

Section EndHandler.

Import HLSService.

Lemma playlist_path (job : Job.t) (quality : Quality) :
  Path.isAbsolute (Job.outputDir job) = true ->
  let qualityDir := Path.join [Job.outputDir job; name quality] in
  let qualityPlaylist := Path.join [qualityDir; "playlist.m3u8"] in
  pathKey qualityPlaylist = pathKey qualityDir ++ ["playlist.m3u8"]
  /\ endsWith qualityPlaylist "/" = false.
Proof.
  intros Habs qualityDir qualityPlaylist.
  destruct (pathKey_join (Job.outputDir job) (name quality) Habs) as [Habs' _].
  destruct (join_segment qualityDir "playlist.m3u8" Habs' eq_refl eq_refl) as (H1 & _ & H2).
  now split.
Qed.

End EndHandler.

(** X16.  When an encoder reports its end and its media playlist is in
    place, the handler leaves the playlist finalized (its content is
    [finalizeMedia] of what the encoder wrote, so it contains the ENDLIST
    tag), touches no other entry of the store, and counts the rendition as
    completed. *)
Theorem end_handler_finalizes_playlist (job : HLSService.Job.t) (i : nat)
    (quality : HLSService.Quality) (w : World) (content : string) (t : Date) :
  Path.isAbsolute (HLSService.Job.outputDir job) = true ->
  HLSService.Job.qualities job !! i = Some quality ->
  let qualityDir := Path.join [HLSService.Job.outputDir job; HLSService.name quality] in
  let key := pathKey qualityDir ++ ["playlist.m3u8"] in
  files w !! key = Some (File content t) ->
  exists job' w' t',
    HLSService.handle job (HLSService.End i) w = (Ok job', w')
    /\ files w' !! key = Some (File (HLSService.finalizeMedia content) t')
    /\ includes (HLSService.finalizeMedia content) endlistTag = true
    /\ (forall k, k <> key -> files w' !! k = files w !! k)
    /\ HLSService.Job.completedQualities job'
       = HLSService.Job.completedQualities job + 1.
Proof.
  intros Habs Hq qualityDir key Hfile.
  destruct (playlist_path job quality Habs) as [Hkey Htrail].
  fold qualityDir in Hkey, Htrail. fold key in Hkey. rewrite <- Hkey in Hfile.
  unfold HLSService.handle. rewrite Hq.
  unfold HLSService.onEnd, HLSService.finalizeMedia. fold qualityDir. mred.
  rewrite (nodeAt_file _ _ _ _ Hfile Htrail). mred.
  pose proof (finalizeMedia_includes content) as Hincl.
  unfold HLSService.finalizeMedia in Hincl.
  destruct (negb (includes content "#EXT-X-ENDLIST")); mred.
  - rewrite Hfile, Htrail. mred. rewrite Hkey.
    eexists _, _, _. split; [reflexivity|]. cbn [files setFiles addLine logAccess].
    rewrite lookup_insert_eq. split; [reflexivity|]. split; [exact Hincl|].
    split; [|reflexivity]. intros k Hk. now rewrite lookup_insert_ne.
  - rewrite Hkey in Hfile.
    eexists _, _, _. split; [reflexivity|]. cbn [files setFiles addLine logAccess].
    split; [exact Hfile|]. split; [exact Hincl|]. split; reflexivity.
Qed.

Lemma end_handler_finalizes_playlist_witness :
  exists job' w' t',
    HLSService.handle (jobOf sampleStart) (HLSService.End 0)
      (HLSService.runEncoders (jobOf sampleStart) (firstn 1 sampleEvents) sampleStart.2).2
    = (Ok job', w')
    /\ files w' !! (pathKey "/app/hls/video-17/720p" ++ ["playlist.m3u8"])
       = Some (File (HLSService.finalizeMedia samplePlaylist) t')
    /\ includes (HLSService.finalizeMedia samplePlaylist) endlistTag = true
    /\ (forall k, k <> pathKey "/app/hls/video-17/720p" ++ ["playlist.m3u8"] ->
          files w' !! k
          = files (HLSService.runEncoders (jobOf sampleStart) (firstn 1 sampleEvents)
                     sampleStart.2).2 !! k)
    /\ HLSService.Job.completedQualities job' = 0 + 1.
Proof.
  apply (end_handler_finalizes_playlist (jobOf sampleStart) 0
           (HLSService.mkQuality "720p" 1280 720 "2500k" "128k")
           (HLSService.runEncoders (jobOf sampleStart) (firstn 1 sampleEvents) sampleStart.2).2
           samplePlaylist sampleDate
           ltac:(vm_compute; reflexivity) ltac:(vm_compute; reflexivity)
           ltac:(vm_compute; reflexivity)).
Defined.



(** ** The value of a resolved conversion *)

Section ResolvedValue.

Import HLSService.







Variables (outputName : string) (qualities : list Quality).



End ResolvedValue.

Section ResolvedJob.

Import HLSService.


End ResolvedJob.



(** ** The stream catalog *)

(** X19.  [deleteStream] is idempotent and confined: deleting a stream a
    second time changes nothing, and no entry outside the tree of the
    stream's directory is touched. *)
Theorem deleteStream_idempotent_and_confined (this : HLSService.t) (stream : string)
    (w : World) :
  let tree := pathKey (Path.join [HLSService.hlsDir this; stream]) in
  let once := HLSService.deleteStream this stream w in
  let twice := HLSService.deleteStream this stream once.2 in
  files twice.2 = files once.2
  /\ forall k, isPrefix tree k = false -> files once.2 !! k = files w !! k.
Proof.
  intros tree once twice. subst once twice. unfold HLSService.deleteStream. mred.
  fold tree.
  set (streamPath := Path.join [HLSService.hlsDir this; stream]) in *.
  destruct (nodeAt (files w) streamPath) as [n|e] eqn:Enode; mred.
  - assert (Hgone : nodeAt (removeTree tree (files w)) streamPath
                    = Throw (errno "ENOENT" streamPath)).
    { apply nodeAt_missing. fold tree.
      rewrite removeTree_lookup. replace tree with (tree ++ []) at 2 by apply app_nil_r.
      now rewrite isPrefix_app. }
    rewrite Hgone. mred. split; [reflexivity|].
    intros k Hk. now rewrite removeTree_lookup, Hk.
  - rewrite Enode. mred. repeat split.
Qed.

(** X20.  [ensureHLSDirectory] never throws and never removes or replaces
    an entry of the store.  Afterwards the HLS directory exists, unless an
    error line was logged instead (a file stands in the way). *)
Theorem ensureHLSDirectory_creates_or_logs (this : HLSService.t) (w : World) :
  let run := HLSService.ensureHLSDirectory this w in
  run.1 = Ok tt
  /\ (forall k n, files w !! k = Some n -> files run.2 !! k = Some n)
  /\ ((exists s t, files run.2 !! pathKey (HLSService.hlsDir this) = Some (Dir s t))
      \/ logged run.2 = logged w ++ [("error", "Error creating HLS directory:")]).
Proof.
  intros run. subst run. unfold HLSService.ensureHLSDirectory. mred.
  destruct (mkdirp (now w) [] (pathKey (HLSService.hlsDir this)) (files w))
    as [m'|] eqn:Emk; mred.
  - split; [reflexivity|]. split.
    + intros k n. now apply mkdirp_keeps with (1 := Emk).
    + left. apply (mkdirp_creates _ _ _ _ _ Emk).
  - split; [reflexivity|]. split; [auto | now right].
Qed.

(** ** Extensions and MIME types *)

Section Extensions.













Lemma existsb_eqb (x : string) (l : list string) :
  existsb (String.eqb x) l = true <-> x ∈ l.
Proof.
  rewrite existsb_exists. split.
  - intros (y & Hin & Heq). apply String.eqb_eq in Heq as ->. now apply list_elem_of_In.
  - intros Hin. exists x. split; [now apply list_elem_of_In | apply String.eqb_refl].
Qed.



(** The shape of an extension as [path.extname] returns it. *)
Lemma fromLastDot_shape (s ext : string) :
  Path.fromLastDot s = Some ext ->
  exists a e, s = a +:+ ext /\ ext = String "." e /\ hasChar "." e = false.
Proof.
  revert ext. induction s as [|c s IH]; intros ext; [discriminate|].
  cbn [Path.fromLastDot]. destruct (Path.fromLastDot s) as [r|] eqn:E.
  - intros [= <-]. destruct (IH _ eq_refl) as (a & e & -> & -> & He).
    now exists (String c a), e.
  - destruct (Ascii.eqb_spec c ".") as [->|_]; [|discriminate]. intros [= <-].
    exists EmptyString, s. split; [reflexivity|]. split; [reflexivity|].
    clear IH. induction s as [|d s IHs]; [reflexivity|].
    cbn [Path.fromLastDot] in E. cbn [hasChar].
    destruct (Path.fromLastDot s); [discriminate|].
    destruct (Ascii.eqb d "."); [discriminate|]. now apply IHs.
Qed.

Lemma fromLastDot_none (s : string) : hasChar "." s = false -> Path.fromLastDot s = None.
Proof.
  induction s as [|c s IH]; [reflexivity|]. cbn [hasChar Path.fromLastDot]. intros H.
  apply orb_false_iff in H as [Hc Hs]. now rewrite (IH Hs), Hc.
Qed.

Lemma fromLastDot_app (x e : string) :
  hasChar "." e = false ->
  Path.fromLastDot (x +:+ String "." e) = Some (String "." e).
Proof.
  intros He. induction x as [|c x IH].
  - cbn [String.append Path.fromLastDot]. now rewrite (fromLastDot_none _ He).
  - cbn [String.append Path.fromLastDot]. now rewrite IH.
Qed.

Lemma basename_plain (b : string) : slashFree b -> Path.basename b = b.
Proof.
  intros Hfree. unfold Path.basename, Path.lastNonEmpty.
  rewrite (split_nosep _ _ Hfree). cbn [fold_left].
  now destruct (String.eqb_spec b "") as [->|_].
Qed.

(** The extension is a suffix of the last component, and is either empty
    or a dot followed by a text without dot and separator. *)
Lemma extname_shape (p : string) :
  exists a, Path.basename p = a +:+ Path.extname p
            /\ (Path.extname p = EmptyString
                \/ exists e, Path.extname p = String "." e
                             /\ hasChar "." e = false /\ hasChar "/" e = false).
Proof.
  pose proof (basename_slashFree p) as Hfree. unfold Path.extname.
  destruct (Path.basename p) as [|c rest] eqn:Eb.
  - exists EmptyString. split; [reflexivity | now left].
  - destruct (Path.fromLastDot rest) as [ext|] eqn:E.
    + destruct (String.eqb (String c rest) "..").
      * exists (String c rest). rewrite app_empty_r. split; [reflexivity | now left].
      * destruct (fromLastDot_shape _ _ E) as (a & e & -> & -> & He).
        exists (String c a). split; [reflexivity|]. right. exists e.
        split; [reflexivity|]. split; [exact He|].
        unfold slashFree in Hfree. cbn [hasChar] in Hfree.
        apply orb_false_iff in Hfree as [_ Hrest].
        rewrite hasChar_app in Hrest. apply orb_false_iff in Hrest as [_ Hext].
        cbn [hasChar] in Hext. now apply orb_false_iff in Hext.
    + exists (String c rest). rewrite app_empty_r. split; [reflexivity | now left].
Qed.

(** The extension of a name made of a stem without dot and separator and
    of an extension. *)
Lemma extname_stem (stem ext : string) :
  stem <> EmptyString -> hasChar "." stem = false -> hasChar "/" stem = false ->
  (ext = EmptyString
   \/ exists e, ext = String "." e /\ hasChar "." e = false /\ hasChar "/" e = false) ->
  Path.basename (stem +:+ ext) = stem +:+ ext /\ Path.extname (stem +:+ ext) = ext.
Proof.
  intros Hne Hdot Hslash Hext.
  assert (Hfree : slashFree (stem +:+ ext)).
  { unfold slashFree. rewrite hasChar_app, Hslash.
    destruct Hext as [->|(e & -> & _ & He)]; [reflexivity|]. cbn [hasChar orb]. exact He. }
  split; [now apply basename_plain|].
  unfold Path.extname. rewrite (basename_plain _ Hfree).
  destruct stem as [|c stem]; [now destruct Hne|]. cbn [String.append].
  cbn [hasChar] in Hdot. apply orb_false_iff in Hdot as [Hc Hstem].
  destruct Hext as [->|(e & -> & He & _)].
  - rewrite app_empty_r. now rewrite (fromLastDot_none _ Hstem).
  - rewrite (fromLastDot_app _ _ He).
    assert (Hnot : String.eqb (String c (stem +:+ String "." e)) ".." = false).
    { apply String.eqb_neq. intros [= -> _]. discriminate Hc. }
    now rewrite Hnot.
Qed.

Lemma substring_prefix (a b : string) : String.substring 0 (String.length a) (a +:+ b) = a.
Proof.
  induction a as [|c a IH]; [now destruct b|].
  cbn [String.length String.append String.substring]. now rewrite IH.
Qed.

End Extensions.

(** X21.  The list of allowed extensions and the MIME table cover the same
    extensions: a path is a valid video file exactly when its lowered
    extension has an entry in the table, which is then its MIME type; every
    other path gets the default type "video/mp4". *)
Theorem mime_table_matches_allowed_extensions (p : string) :
  (VideoStreamService.isValidVideoFile p = true
   <-> exists mime,
         header (toLowerCase (Path.extname p)) VideoStreamService.mimeTypes = Some mime
         /\ VideoStreamService.getVideoMimeType p = mime)
  /\ (VideoStreamService.isValidVideoFile p = false
      <-> header (toLowerCase (Path.extname p)) VideoStreamService.mimeTypes = None
          /\ VideoStreamService.getVideoMimeType p = "video/mp4").
Proof.
  unfold VideoStreamService.isValidVideoFile, VideoStreamService.getVideoMimeType,
    VideoStreamService.mimeTypes.
  generalize (toLowerCase (Path.extname p)). intros e.
  cbn [existsb header]. rewrite !(String.eqb_sym e).
  repeat match goal with
         | |- context [String.eqb ?k e] => destruct (String.eqb k e)
         end;
    cbn [orb default from_option id];
    (split; split;
     [ intros H; try discriminate H; eexists; split; reflexivity
     | intros (mime & H & _); try discriminate H; reflexivity
     | intros H; try discriminate H; split; reflexivity
     | intros [H _]; try discriminate H; reflexivity ]).
Qed.




Section StoredName.

Import UploadRoutes.

Lemma storageFilename_spec (now random : Z) (file : Incoming.t) :
  hasChar "." (Incoming.fieldname file) = false ->
  hasChar "/" (Incoming.fieldname file) = false ->
  let stem := Incoming.fieldname file +:+ "-" +:+ toString (Num now) +:+ "-"
                +:+ toString (Num random) in
  let stored := storageFilename now random file in
  stored = stem +:+ Path.extname (Incoming.originalname file)
  /\ hasChar "." stem = false /\ hasChar "/" stem = false /\ stem <> EmptyString
  /\ Path.basename stored = stored
  /\ Path.extname stored = Path.extname (Incoming.originalname file).
Proof.
  intros Hdot Hslash stem stored.
  assert (Hstored : stored = stem +:+ Path.extname (Incoming.originalname file)).
  { subst stored stem. unfold storageFilename. now rewrite !app_assoc_s. }
  assert (Hnum : forall (c : ascii) (x : jsnum),
             c = "."%char \/ c = "/"%char -> hasChar c (toString x) = false).
  { intros c x [-> | ->]; apply toString_hasChar; (reflexivity || discriminate). }
  assert (Hsd : hasChar "." stem = false).
  { subst stem. rewrite !hasChar_app, Hdot, !Hnum by auto. reflexivity. }
  assert (Hss : hasChar "/" stem = false).
  { subst stem. rewrite !hasChar_app, Hslash, !Hnum by auto. reflexivity. }
  assert (Hne : stem <> EmptyString).
  { subst stem. destruct (Incoming.fieldname file); discriminate. }
  destruct (extname_shape (Incoming.originalname file)) as (_ & _ & Hshape).
  destruct (extname_stem stem _ Hne Hsd Hss Hshape) as [Hbase Hext].
  rewrite Hstored. auto 10.
Qed.

End StoredName.

(** X24.  The name under which an upload is stored is
    [<field>-<Date.now()>-<random>] followed by the extension of the original
    name, and nothing else of the original name: it contains no separator,
    its extension (and so its validity as a video file) is that of the
    original name, and the output name derived from it for the conversion
    is [<field>-<Date.now()>-<random>], an ordinary path segment. *)
Theorem stored_upload_name (now random : Z) (file : UploadRoutes.Incoming.t) :
  hasChar "." (UploadRoutes.Incoming.fieldname file) = false ->
  hasChar "/" (UploadRoutes.Incoming.fieldname file) = false ->
  let stem := UploadRoutes.Incoming.fieldname file +:+ "-" +:+ toString (Num now)
                +:+ "-" +:+ toString (Num random) in
  let stored := UploadRoutes.storageFilename now random file in
  slashFree stored
  /\ Path.extname stored = Path.extname (UploadRoutes.Incoming.originalname file)
  /\ VideoStreamService.isValidVideoFile stored
     = VideoStreamService.isValidVideoFile (UploadRoutes.Incoming.originalname file)
  /\ Path.parseName stored = stem
  /\ slashFree stem /\ Path.isNormalSegment stem = true.
Proof.
  intros Hdot Hslash stem stored.
  destruct (storageFilename_spec now random file Hdot Hslash)
    as (Hstored & Hsd & Hss & Hne & Hbase & Hext).
  fold stem in Hstored, Hsd, Hss, Hne. fold stored in Hstored, Hbase, Hext.
  split; [rewrite <- Hbase; apply basename_slashFree|].
  split; [exact Hext|].
  split; [unfold VideoStreamService.isValidVideoFile; now rewrite Hext|].
  split.
  - unfold Path.parseName. rewrite Hbase, Hext, Hstored, length_app_s.
    replace (String.length stem + String.length (Path.extname (UploadRoutes.Incoming.originalname file))
             - String.length (Path.extname (UploadRoutes.Incoming.originalname file)))%nat
      with (String.length stem) by lia.
    apply substring_prefix.
  - split; [exact Hss|]. unfold Path.isNormalSegment.
    destruct stem as [|c stem']; [now destruct Hne|].
    cbn [hasChar] in Hsd. apply orb_false_iff in Hsd as [Hc _].
    destruct (Ascii.eqb_spec c ".") as [->|Hcne]; [discriminate Hc|].
    assert (H1 : String.eqb (String c stem') "." = false)
      by (apply String.eqb_neq; intros [= -> _]; now destruct Hcne).
    assert (H2 : String.eqb (String c stem') ".." = false)
      by (apply String.eqb_neq; intros [= -> _]; now destruct Hcne).
    now rewrite H1, H2.
Qed.

Lemma stored_upload_name_witness :
  Path.parseName (UploadRoutes.storageFilename 1700000000000 17
                    (UploadRoutes.Incoming.mk "video" "../My Holiday.final.MP4" "video/mp4"))
  = "video" +:+ "-" +:+ toString (Num 1700000000000) +:+ "-" +:+ toString (Num 17).
Proof.
  apply (stored_upload_name 1700000000000 17
           (UploadRoutes.Incoming.mk "video" "../My Holiday.final.MP4" "video/mp4")
           ltac:(reflexivity) ltac:(reflexivity)).
Defined.

(** X25.  The upload filter and the streaming check disagree.  An upload
    accepted for its extension is stored under a name that the local video
    route accepts; an upload accepted only for its declared MIME type keeps
    its extension, and the stored file is refused (400) by the streaming
    check. *)
Theorem upload_filter_and_streaming_check (now random : Z)
    (file : UploadRoutes.Incoming.t) :
  hasChar "." (UploadRoutes.Incoming.fieldname file) = false ->
  hasChar "/" (UploadRoutes.Incoming.fieldname file) = false ->
  let original := UploadRoutes.Incoming.originalname file in
  let stored := UploadRoutes.storageFilename now random file in
  (toLowerCase (Path.extname original) ∈ [".mp4"; ".avi"; ".mov"; ".mkv"; ".webm"] ->
     UploadRoutes.fileFilter file = Ok true
     /\ VideoStreamService.isValidVideoFile stored = true)
  /\ (UploadRoutes.Incoming.mimetype file
        ∈ ["video/mp4"; "video/avi"; "video/mov"; "video/mkv"; "video/webm"] ->
      VideoStreamService.isValidVideoFile original = false ->
      UploadRoutes.fileFilter file = Ok true
      /\ VideoStreamService.isValidVideoFile stored = false).
Proof.
  intros Hdot Hslash original stored.
  destruct (storageFilename_spec now random file Hdot Hslash) as (_ & _ & _ & _ & _ & Hext).
  fold stored original in Hext.
  assert (Hsame : VideoStreamService.isValidVideoFile stored
                  = VideoStreamService.isValidVideoFile original)
    by (unfold VideoStreamService.isValidVideoFile; now rewrite Hext).
  split.
  - intros Hin. unfold UploadRoutes.fileFilter. fold original.
    rewrite (proj2 (existsb_eqb _ _) Hin), orb_true_r. split; [reflexivity|].
    rewrite Hsame. unfold VideoStreamService.isValidVideoFile. apply existsb_eqb.
    repeat (apply elem_of_cons in Hin as [->|Hin]; [repeat constructor|]).
    now apply elem_of_nil in Hin.
  - intros Hmime Hinvalid. unfold UploadRoutes.fileFilter.
    rewrite (proj2 (existsb_eqb _ _) Hmime). split; [reflexivity|]. now rewrite Hsame.
Qed.

Lemma upload_filter_and_streaming_check_witness :
  UploadRoutes.fileFilter (UploadRoutes.Incoming.mk "video" "clip.bin" "video/mp4") = Ok true
  /\ VideoStreamService.isValidVideoFile
       (UploadRoutes.storageFilename 1700000000000 17
          (UploadRoutes.Incoming.mk "video" "clip.bin" "video/mp4")) = false.
Proof.
  destruct (upload_filter_and_streaming_check 1700000000000 17
              (UploadRoutes.Incoming.mk "video" "clip.bin" "video/mp4")
              ltac:(reflexivity) ltac:(reflexivity)) as [_ Hmime].
  apply Hmime; [left | reflexivity].
Defined.

(** X26.  The convert route refuses a request without [inputPath] or
    without [outputName] with 400 "Missing parameters"; no conversion is
    started: the store and the log of file-system accesses are left as they
    were, whatever the encoders would report. *)
Theorem convert_route_requires_parameters (hlsService : HLSService.t)
    (inputPath outputName : option string) (options : option HLSService.Options.t)
    (events : list HLSService.Event) (w : World) :
  truthy inputPath = false \/ truthy outputName = false ->
  let run := HlsRoutes.postConvert hlsService inputPath outputName options events w in
  status (responseOf run) = 400
  /\ payload (responseOf run)
     = Json (JObj [ ("error", JStr "Missing parameters");
                    ("message", JStr "inputPath and outputName are required") ])
  /\ files run.2 = files w
  /\ log run.2 = log w.
Proof.
  intros Hmissing run. subst run. unfold HlsRoutes.postConvert. mred.
  assert (Hcond : negb (truthy inputPath) || negb (truthy outputName) = true).
  { destruct Hmissing as [-> | ->]; [reflexivity | apply orb_true_r]. }
  rewrite Hcond. mred. repeat split.
Qed.

Lemma convert_route_requires_parameters_witness :
  status (responseOf (HlsRoutes.postConvert sampleHls (Some "/app/videos/a.mp4") (Some "")
                        None sampleEvents sampleWorld)) = 400.
Proof.
  apply (convert_route_requires_parameters sampleHls (Some "/app/videos/a.mp4") (Some "")
           None sampleEvents sampleWorld).
  right. reflexivity.
Defined.



Section OrdinaryNames.

Import HLSService.

(** The key of a path made of ordinary segments under the HLS directory. *)
Lemma ordinary_path_key (this : HLSService.t) (segs : list string) (last : string) :
  Path.isAbsolute (hlsDir this) = true ->
  Forall (fun s => Path.isNormalSegment s = true /\ slashFree s) (segs ++ [last]) ->
  let p := Path.join [hlsDir this; JS.join "/" (segs ++ [last])] in
  pathKey p = pathKey (hlsDir this) ++ segs ++ [last].
Proof.
  intros Habs Hall p. subst p.
  destruct (pathKey_join (hlsDir this) (JS.join "/" (segs ++ [last])) Habs) as [_ ->].
  rewrite split_join.
  - apply fold_normStep_normal. eapply Forall_impl; [exact Hall|]. now intros s [H _].
  - now destruct segs.
  - eapply Forall_impl; [exact Hall|]. now intros s [_ H].
Qed.

End OrdinaryNames.

(** X28.  With ordinary path segments as parameters (no separator, not
    empty, not "." or ".."), the segment route stays inside the stream: its
    file-system accesses are the existence test of the stream's master
    playlist and, when the stream exists, one read of
    [<hls>/<stream>/<quality>/<segment>]; the store is not changed. *)
Theorem segment_route_confined_for_ordinary_names (this : HLSService.t)
    (stream quality segment : string) (w : World) :
  Path.isAbsolute (HLSService.hlsDir this) = true ->
  Forall (fun s => Path.isNormalSegment s = true /\ slashFree s) [stream; quality; segment] ->
  let base := pathKey (HLSService.hlsDir this) in
  let run := HlsRoutes.getSegmentRoute this stream quality segment w in
  files run.2 = files w
  /\ exists accesses,
       log run.2 = log w ++ accesses
       /\ Forall (fun a => a = (OpExists, base ++ [stream; "master.m3u8"])
                           \/ a = (OpRead, base ++ [stream; quality; segment]))
                 accesses.
Proof.
  intros Habs Hall base run. subst run.
  assert (Hstream : Path.isNormalSegment stream = true /\ slashFree stream)
    by now inversion Hall.
  assert (Hmaster : pathKey (Path.join [Path.join [HLSService.hlsDir this; stream];
                                        "master.m3u8"])
                    = base ++ [stream; "master.m3u8"]).
  { rewrite master_key by exact Habs.
    rewrite pathKey_join_segment, normStep_normal by (auto; apply Hstream).
    fold base. now rewrite <- app_assoc. }
  assert (Hseg : pathKey (Path.join [HLSService.hlsDir this;
                                     stream +:+ "/" +:+ quality +:+ "/" +:+ segment])
                 = base ++ [stream; quality; segment]).
  { apply (ordinary_path_key this [stream; quality] segment Habs Hall). }
  unfold HlsRoutes.getSegmentRoute, HLSService.streamExists, HLSService.getSegment,
    HlsRoutes.streamNotFound.
  mred. rewrite Hmaster.
  repeat (hcase; cbn [negb] in *; mred); try discriminate; rewrite ?Hseg;
    (split; [reflexivity|]); rewrite <- ?app_assoc;
    first [ exists []; split; [symmetry; apply app_nil_r | constructor]
          | eexists; (split; [reflexivity|]);
            repeat (apply List.Forall_cons; [first [now left | now right]|]);
            apply List.Forall_nil ].
Qed.

Lemma segment_route_confined_for_ordinary_names_witness :
  files (HlsRoutes.getSegmentRoute sampleHls "s" "720p" "segment_000.ts" sampleWorld).2
  = files sampleWorld.
Proof.
  apply (segment_route_confined_for_ordinary_names sampleHls "s" "720p" "segment_000.ts"
           sampleWorld ltac:(reflexivity)
           ltac:(repeat constructor; reflexivity)).
Defined.



Section ParentSegments.

Lemma normStep_parent (res : list string) :
  Forall (fun s => Path.isNormalSegment s = true) res ->
  Path.normStep false res ".." = removelast res.
Proof.
  intros Hnorm. unfold Path.normStep. cbn [String.eqb Ascii.eqb Bool.eqb orb].
  destruct (last res) as [l|] eqn:Elast.
  - assert (Hl : Path.isNormalSegment l = true).
    { rewrite Forall_forall in Hnorm. apply Hnorm.
      apply last_Some in Elast as [init ->]. apply elem_of_app. right. now left. }
    unfold Path.isNormalSegment in Hl. apply andb_true_iff in Hl as [_ Hl].
    apply negb_true_iff in Hl. now rewrite Hl.
  - apply last_None in Elast as ->. reflexivity.
Qed.

End ParentSegments.

(** X30.  The segment route resolves ".." in its parameters instead of
    refusing them: for an existing stream, the quality ".." and a segment
    "../<name>" make it read [<name>] in the parent of the HLS directory, and
    send that file when there is one. *)
Theorem segment_route_follows_parent_segments (this : HLSService.t)
    (stream name : string) (w : World) :
  Path.isAbsolute (HLSService.hlsDir this) = true ->
  Path.isNormalSegment stream = true -> slashFree stream ->
  Path.isNormalSegment name = true -> slashFree name ->
  endsWith name ".ts" = true ->
  (HLSService.streamExists this stream w).1 = Ok true ->
  let base := pathKey (HLSService.hlsDir this) in
  let run := HlsRoutes.getSegmentRoute this stream ".." ("../" +:+ name) w in
  log run.2 = log w ++ [ (OpExists, base ++ [stream; "master.m3u8"]);
                         (OpRead, removelast base ++ [name]) ]
  /\ forall content t,
       files w !! (removelast base ++ [name]) = Some (File content t) ->
       payload (responseOf run) = Bytes content
       /\ status (responseOf run) = status (res w).
Proof.
  intros Habs Hstream Hsfree Hname Hnfree Hts Hexists base run. subst run.
  set (segmentPath := stream +:+ "/" +:+ ".." +:+ "/" +:+ ("../" +:+ name)).
  assert (Hmaster : pathKey (Path.join [Path.join [HLSService.hlsDir this; stream];
                                        "master.m3u8"])
                    = base ++ [stream; "master.m3u8"]).
  { rewrite master_key by exact Habs.
    rewrite pathKey_join_segment, normStep_normal by auto.
    fold base. now rewrite <- app_assoc. }
  assert (Hkey : pathKey (Path.join [HLSService.hlsDir this; segmentPath])
                 = removelast base ++ [name]).
  { destruct (pathKey_join (HLSService.hlsDir this) segmentPath Habs) as [_ ->].
    subst segmentPath.
    change (stream +:+ "/" +:+ ".." +:+ "/" +:+ ("../" +:+ name))
      with (stream +:+ String "/" (".." +:+ String "/" (".." +:+ String "/" name))).
    rewrite !split_app_sep, !(split_nosep "/" "..") by reflexivity.
    rewrite (split_nosep _ _ Hsfree), (split_nosep _ _ Hnfree).
    cbn [app fold_left]. fold base.
    rewrite (normStep_normal base stream Hstream).
    rewrite (normStep_parent (base ++ [stream]))
      by (apply Forall_app; split; [apply pathKey_normal | now repeat constructor]).
    rewrite removelast_last, (normStep_parent base) by apply pathKey_normal.
    now apply normStep_normal. }
  assert (Htrail : endsWith (Path.join [HLSService.hlsDir this; segmentPath]) "/" = false).
  { apply join_rendered; [exact Habs | | |].
    - subst segmentPath. now destruct stream.
    - subst segmentPath.
      rewrite <- !app_assoc_s, endsWith_app_tail by now apply normal_nonempty.
      now apply endsWith_hasChar.
    - rewrite Hkey. now destruct (removelast base). }
  assert (Hts' : endsWith ("../" +:+ name) ".ts" = true).
  { cbn [String.append endsWith]. rewrite Hts. now rewrite !orb_true_r. }
  unfold HLSService.streamExists in Hexists. revert Hexists. mred.
  set (master := Path.join [Path.join [HLSService.hlsDir this; stream]; "master.m3u8"]) in *.
  destruct (nodeAt (files w) master) as [n|e] eqn:Enode; [|discriminate]. intros _.
  unfold HlsRoutes.getSegmentRoute, HLSService.streamExists, HLSService.getSegment.
  mred. rewrite Hts'. cbn [negb]. mred. fold master. rewrite Enode. cbn [negb]. mred.
  fold segmentPath. rewrite Hkey, Hmaster. split.
  - repeat (hcase; mred); now rewrite <- app_assoc.
  - intros content t Hfile. rewrite <- Hkey in Hfile.
    rewrite (nodeAt_file _ _ _ _ Hfile Htrail). mred. split; reflexivity.
Qed.

Lemma segment_route_follows_parent_segments_witness :
  payload (responseOf (HlsRoutes.getSegmentRoute sampleHls "s" ".." "../secret.ts"
                         sampleWorld)) = Bytes "TOPSECRET".
Proof.
  destruct (segment_route_follows_parent_segments sampleHls "s" "secret.ts" sampleWorld
              ltac:(reflexivity) ltac:(reflexivity) ltac:(reflexivity)
              ltac:(reflexivity) ltac:(reflexivity) ltac:(reflexivity)
              ltac:(vm_compute; reflexivity)) as [_ Hserve].
  apply (Hserve "TOPSECRET" sampleDate). vm_compute. reflexivity.
Defined.

